(** * reminders.js: Notion due-item digest delivered to Slack

    A shallow embedding of [reminders.js] (the channel + DM job) and the
    properties of its extraction, grouping, formatting and delivery steps.

    Strings are byte strings holding the UTF-8 encoding of the JavaScript
    string; the literals below are the bytes of the source file. *)

From Stdlib Require Import ZArith String Ascii List Bool Lia DecimalString.
From Stdlib Require Import DecimalPos Permutation.
From stdpp Require Import base option list strings gmap.

Local Open Scope string_scope.
Local Open Scope Z_scope.
Local Open Scope list_scope.

(** ** JavaScript string primitives *)

Module JS.

Definition nl : string := String "010" EmptyString.

(** UTF-8 encoding of a code point of the Basic Multilingual Plane. *)
Definition utf8 (cp : N) : string :=
  let b (n : N) := ascii_of_N n in
  (if cp <? 128 then String (b cp) EmptyString
   else if cp <? 2048 then
     String (b (192 + cp / 64)) (String (b (128 + cp mod 64)) EmptyString)
   else
     String (b (224 + cp / 4096))
       (String (b (128 + (cp / 64) mod 64))
          (String (b (128 + cp mod 64)) EmptyString)))%N.

(** ECMAScript WhiteSpace and LineTerminator code points: the characters
    [String.prototype.trim] removes. *)
Definition whiteSpace : list N :=
  [ 0x0009; 0x000B; 0x000C; 0x0020; 0x00A0; 0xFEFF;
    0x1680; 0x2000; 0x2001; 0x2002; 0x2003; 0x2004; 0x2005; 0x2006;
    0x2007; 0x2008; 0x2009; 0x200A; 0x202F; 0x205F; 0x3000;
    0x000A; 0x000D; 0x2028; 0x2029 ]%N.

Definition wsEncodings : list string :=
  Eval cbv in List.map utf8 whiteSpace.

Definition leading (encs : list string) (s : string) : option string :=
  List.find (fun w => String.prefix w s) encs.

(** Drop every leading character whose encoding is in [encs]; [skip] is
    the number of bytes of the current character still to drop. *)
Fixpoint strip (encs : list string) (skip : nat) (s : string) : string :=
  match skip with
  | S k => match s with
           | String _ r => strip encs k r
           | EmptyString => EmptyString
           end
  | O => match leading encs s with
         | Some w => match s with
                     | String _ r => strip encs (Nat.pred (String.length w)) r
                     | EmptyString => EmptyString
                     end
         | None => s
         end
  end.

(** A string made of white space characters only. *)
Inductive WhiteSpaceOnly : string -> Prop :=
| ws_empty : WhiteSpaceOnly ""
| ws_more (w s : string) :
    In w wsEncodings -> WhiteSpaceOnly s -> WhiteSpaceOnly (String.append w s).

Definition trimStart (s : string) : string := strip wsEncodings 0 s.

Definition trimEnd (s : string) : string :=
  String.rev (strip (List.map String.rev wsEncodings) 0 (String.rev s)).

Definition trim (s : string) : string := trimEnd (trimStart s).

(** [Array.prototype.join] on an array of strings. *)
Definition join (sep : string) (l : list string) : string :=
  String.concat sep l.

Definition startsWith (s p : string) : bool := String.prefix p s.

(** Truthiness of a string: only the empty string is falsy. *)
Definition truthy (s : string) : bool := negb (String.eqb s "").

(** [s || d] on strings. *)
Definition orElse (s d : string) : string := if truthy s then s else d.

(** [String.prototype.toLowerCase] on the ASCII letters; other bytes are
    kept. The script only compares the result with ["true"], and no
    character outside ASCII lower-cases to one of its letters. *)
Definition lowerAscii (a : ascii) : ascii :=
  let n := N_of_ascii a in
  if ((65 <=? n) && (n <=? 90))%N then ascii_of_N (n + 32) else a.

Fixpoint toLowerCase (s : string) : string :=
  match s with
  | EmptyString => EmptyString
  | String a r => String (lowerAscii a) (toLowerCase r)
  end.

(** A number that [parseInt] can return: NaN or an integer. *)
Inductive number := NaN | Int (z : Z).

(** Interpolation of a number in a template literal. *)
Definition toString (n : number) : string :=
  match n with
  | NaN => "NaN"
  | Int z => NilZero.string_of_int (Z.to_int z)
  end.

End JS.

(** ** Notion pages *)

Record RichText := { plain_text : string }.
Record DateValue := { start : string }.
Record SelectOption := { name : string }.

(** A property value of a page. [type] is the discriminator Notion sends;
    the payload fields are optional because the code guards each of them. *)
Record Property := {
  type : string;
  title : option (list RichText);
  date : option DateValue;
  select : option SelectOption;
  status : option SelectOption
}.

Record Page := { properties : option (gmap string Property) }.

(** [page.properties?.[propName]] *)
Definition prop_of (page : Page) (propName : string) : option Property :=
  properties page ≫= (fun ps => ps !! propName).

(** ** Notion property names *)

Definition PROP_TITLE : string := "Name".
Definition PROP_NEXT_DUE : string := "Next due".
Definition PROP_STATUS : string := "Status".
Definition PROP_TYPE : string := "Type".
Definition PROP_ENV : string := "Environment".

(** ** Helpers *)

Definition getTitle (page : Page) : string :=
  match prop_of page PROP_TITLE with
  | None => "(Untitled)"
  | Some prop =>
      if negb (String.eqb (type prop) "title") then "(Untitled)"
      else
        JS.orElse
          (JS.trim (JS.join "" (List.map plain_text (default [] (title prop)))))
          "(Untitled)"
  end.

(** [null] is [None]. *)
Definition getDate (page : Page) (propName : string) : option string :=
  match prop_of page propName with
  | None => None
  | Some prop =>
      if String.eqb (type prop) "date" then
        match date prop with
        | Some d => if JS.truthy (start d) then Some (start d) else None
        | None => None
        end
      else None
  end.

Definition getSelectName (page : Page) (propName : string) : string :=
  match prop_of page propName with
  | None => ""
  | Some prop =>
      if String.eqb (type prop) "select" then
        match select prop with
        | Some o => JS.orElse (name o) ""
        | None => ""
        end
      else ""
  end.

Definition getStatusName (page : Page) (propName : string) : string :=
  match prop_of page propName with
  | None => ""
  | Some prop =>
      if String.eqb (type prop) "select" then
        match select prop with
        | Some o => JS.orElse (name o) ""
        | None => ""
        end
      else if String.eqb (type prop) "status" then
        match status prop with
        | Some o => JS.orElse (name o) ""
        | None => ""
        end
      else ""
  end.

(** ** Insertion-ordered [Map] with string keys

    Entries are kept in insertion order, as [Map.prototype.entries]
    enumerates them. *)

Module JSMap.
Section Ops.
Context {V : Type}.

Definition t := list (string * V).

Definition has (k : string) (m : t) : bool :=
  existsb (fun e => String.eqb (fst e) k) m.

Definition get (k : string) (m : t) : option V :=
  snd <$> List.find (fun e => String.eqb (fst e) k) m.

(** [set] keeps the position of an existing key and appends a new one. *)
Definition set (k : string) (v : V) (m : t) : t :=
  if has k m
  then List.map (fun e => if String.eqb (fst e) k then (k, v) else e) m
  else m ++ [(k, v)].

Definition entries (m : t) : list (string * V) := m.
End Ops.

(** [m.get(k).push(x)]: the array stored under [k] is extended in place. *)
Definition push {A : Type} (k : string) (x : A) (m : list (string * list A))
  : list (string * list A) :=
  List.map (fun e => if String.eqb (fst e) k then (fst e, snd e ++ [x]) else e) m.
End JSMap.

(** ** Configuration: the module-level constants *)

Record Config := {
  DATABASE_ID : string;
  SLACK_WEBHOOK_URL : string;
  SLACK_BOT_TOKEN : string;
  LOOKAHEAD_DAYS : JS.number;
  POST_WHEN_EMPTY : bool;
  DONE_STATUS_NAME : string;
  DM_TARGETS : list string
}.

(** How the optional settings are read from [process.env]; [None] is an
    unset variable. [LOOKAHEAD_DAYS] and [DM_TARGETS] are taken as parsed. *)
Module Env.
(** [process.env.X || d] *)
Definition orDefault (v : option string) (d : string) : string :=
  match v with
  | Some s => JS.orElse s d
  | None => d
  end.

Definition SLACK_WEBHOOK_URL (v : option string) : string := orDefault v "".
Definition SLACK_BOT_TOKEN (v : option string) : string := orDefault v "".
Definition POST_WHEN_EMPTY (v : option string) : bool :=
  String.eqb (JS.toLowerCase (orDefault v "true")) "true".
Definition DONE_STATUS_NAME (v : option string) : string :=
  orDefault v "Done".
End Env.

(** ** Grouping and formatting *)

Section Digest.
Context (cfg : Config).
(** [dayjs(due).format("YYYY-MM-DD")], from the dayjs library. *)
Context (dayjs_format : string -> string).

Definition dueKey (p : Page) : string :=
  match getDate p PROP_NEXT_DUE with
  | Some due => dayjs_format due
  | None => "No due date"
  end.

Definition groupByDueDate (items : list Page) : list (string * list Page) :=
  fold_left
    (fun groups p =>
       let key := dueKey p in
       let groups :=
         if negb (JSMap.has key groups) then JSMap.set key [] groups
         else groups in
       JSMap.push key p groups)
    items [].

Definition itemLine (p : Page) : string :=
  let title := getTitle p in
  let type := getSelectName p PROP_TYPE in
  let env := getSelectName p PROP_ENV in
  let status := getStatusName p PROP_STATUS in
  let prefixBits := List.filter JS.truthy [type; env] in
  let prefix :=
    match prefixBits with
    | [] => ""
    | _ => JS.join " / " prefixBits +:+ " â€” "
    end in
  let statusTxt :=
    if JS.truthy status then " _(Status: " +:+ status +:+ ")_" else "" in
  "â€¢ " +:+ prefix +:+ title +:+ statusTxt.

Definition header : string :=
  "ðŸ”” *Privacy & Security Reminders* (next "
    +:+ JS.toString (LOOKAHEAD_DAYS cfg) +:+ " days)".

Definition formatDigest (items : list Page) : string :=
  match items with
  | [] =>
      header +:+ JS.nl +:+ "âœ… Nothing due in the next "
        +:+ JS.toString (LOOKAHEAD_DAYS cfg) +:+ " days."
  | _ =>
      let grouped := groupByDueDate items in
      let lines :=
        flat_map
          (fun '(dueDate, pages) =>
             (JS.nl +:+ "*" +:+ dueDate +:+ "*") :: List.map itemLine pages)
          (JSMap.entries grouped) in
      header +:+ JS.nl +:+ JS.join JS.nl lines
  end.

End Digest.

(** ** Effects: calls to the collaborators

    The job talks to Notion, to the Slack webhook, to the Slack Web API, to
    the timer and to the console. Every such call is a [Call]; the outside
    world answers it with a value or rejects it with an [Error]. *)

Inductive Error :=
| MissingBotToken
| CouldNotOpenDm (userId : string)
| InvalidDmTarget (targetId : string)
| DmTargetsWithoutToken
| WebhookFailed (code : Z) (body : string)
| Rejected (reason : string).

(** [err.message] *)
Definition message_of (e : Error) : string :=
  match e with
  | MissingBotToken => "Missing SLACK_BOT_TOKEN (required for DMs)."
  | CouldNotOpenDm userId => "Could not open DM with user " +:+ userId
  | InvalidDmTarget targetId =>
      "DM target must start with U or D. Got: " +:+ targetId
  | DmTargetsWithoutToken =>
      "SLACK_DM_USER_IDS is set but SLACK_BOT_TOKEN is missing."
  | WebhookFailed code body =>
      "Slack webhook failed: " +:+ JS.toString (JS.Int code) +:+ " " +:+ body
  | Rejected reason => reason
  end.

Inductive Call :=
| DatabasesQuery (database_id : string) (lookahead : JS.number)
| Fetch (url : string) (text : string)
| ConversationsOpen (users : string)
| ChatPostMessage (channel text : string)
| SetTimeout (ms : Z)
| ConsoleLog (line : string)
| ConsoleError (line : string).

Record QueryResponse := { results : option (list Page) }.
Record Response := { res_ok : bool; res_status : Z; res_text : string }.

(** What a fulfilled call resolves to. For [ConversationsOpen] it is
    [openResp?.channel?.id]. *)
Definition Answer (c : Call) : Type :=
  match c with
  | DatabasesQuery _ _ => QueryResponse
  | Fetch _ _ => Response
  | ConversationsOpen _ => option string
  | ChatPostMessage _ _ => unit
  | SetTimeout _ => unit
  | ConsoleLog _ => unit
  | ConsoleError _ => unit
  end.

(** An async function body: return, throw, or await a call and go on. *)
Inductive Prog (A : Type) : Type :=
| Ret (a : A)
| Throw (e : Error)
| Await (c : Call) (k : Error + Answer c -> Prog A).

Arguments Ret {A} a.
Arguments Throw {A} e.
Arguments Await {A} c k.

Fixpoint bind {A B : Type} (p : Prog A) (f : A -> Prog B) : Prog B :=
  match p with
  | Ret a => f a
  | Throw e => Throw e
  | Await c k => Await c (fun r => bind (k r) f)
  end.


(** [await c]: a rejected call throws. *)
Definition await (c : Call) : Prog (Answer c) :=
  Await c (fun r => match r with inl e => Throw e | inr x => Ret x end).

(** [Prog] is a monad; stdpp's notations [x ← p; q] and [p;; q] sequence
    awaited steps. *)
#[global] Instance Prog_ret : MRet Prog := @Ret.
#[global] Instance Prog_bind : MBind Prog := fun A B f p => bind p f.

(** ** Running a program against a world *)

Record Run (W A : Type) := {
  trace : list Call;
  final : W;
  result : Error + A
}.
Arguments trace {W A} r.
Arguments final {W A} r.
Arguments result {W A} r.

Section World.
Context {W : Type}.
Context (handle : forall c : Call, W -> W * (Error + Answer c)).

Fixpoint run {A : Type} (p : Prog A) (w : W) : Run W A :=
  match p with
  | Ret a => {| trace := []; final := w; result := inr a |}
  | Throw e => {| trace := []; final := w; result := inl e |}
  | Await c k =>
      let '(w', r) := handle c w in
      let rest := run (k r) w' in
      {| trace := c :: trace rest; final := final rest;
         result := result rest |}
  end.
End World.

(** ** The job *)

Record SlackWebClient := { token : string }.

Record RunResult := {
  dueCount : nat;
  channelPosted : bool;
  dmsSent : nat
}.

Definition nonEmpty {A : Type} (l : list A) : bool :=
  negb (Nat.eqb (length l) 0).

Section Job.
Context (cfg : Config).
Context (dayjs_format : string -> string).

(** Only create the Slack client if there is a bot token. *)
Definition slack : option SlackWebClient :=
  if JS.truthy (SLACK_BOT_TOKEN cfg)
  then Some {| token := SLACK_BOT_TOKEN cfg |}
  else None.

(** The query window is computed by dayjs from the clock and
    [LOOKAHEAD_DAYS]; the call records what determines it. *)
Definition fetchDueItems : Prog (list Page) :=
  response ← await (DatabasesQuery (DATABASE_ID cfg) (LOOKAHEAD_DAYS cfg));
  Ret (List.filter
         (fun p => negb (String.eqb (getStatusName p PROP_STATUS)
                                    (DONE_STATUS_NAME cfg)))
         (default [] (results response))).

(** The request body is [JSON.stringify({ text })]. *)
Definition postToSlackWebhook (text : string) : Prog bool :=
  if negb (JS.truthy (SLACK_WEBHOOK_URL cfg)) then Ret false
  else
    res ← await (Fetch (SLACK_WEBHOOK_URL cfg) text);
    if negb (res_ok res)
    then Throw (WebhookFailed (res_status res) (res_text res))
    else Ret true.

Definition openBotDmWithUser (userId : string) : Prog string :=
  match slack with
  | None => Throw MissingBotToken
  | Some _ =>
      dmChannelId ← await (ConversationsOpen userId);
      match dmChannelId with
      | Some id => if JS.truthy id then Ret id
                   else Throw (CouldNotOpenDm userId)
      | None => Throw (CouldNotOpenDm userId)
      end
  end.

Definition dmTarget (targetId text : string) : Prog unit :=
  match slack with
  | None => Throw MissingBotToken
  | Some _ =>
      if JS.startsWith targetId "D" then
        await (ChatPostMessage targetId text);; Ret tt
      else if JS.startsWith targetId "U" then
        dmChannelId ← openBotDmWithUser targetId;
        await (ChatPostMessage dmChannelId text);; Ret tt
      else Throw (InvalidDmTarget targetId)
  end.

(** The [for (const target of DM_TARGETS)] loop, threading [dmsSent]. *)
Fixpoint forEachTarget (targets : list string) (message : string)
         (dmsSent : nat) : Prog nat :=
  match targets with
  | [] => Ret dmsSent
  | target :: rest =>
      dmTarget target message;;
      let dmsSent := S dmsSent in
      await (SetTimeout 1100);;
      forEachTarget rest message dmsSent
  end.

Definition showNat (n : nat) : string := JS.toString (JS.Int (Z.of_nat n)).

Definition summary (r : RunResult) : string :=
  "Done. Due items: " +:+ showNat (dueCount r)
    +:+ ". Channel posted: " +:+ (if channelPosted r then "1" else "0")
    +:+ ". DMs sent: " +:+ showNat (dmsSent r) +:+ ".".

(** [main] returns the three values it interpolates in its summary line. *)
Definition main : Prog RunResult :=
  items ← fetchDueItems;
  let message := formatDigest cfg dayjs_format items in
  postedToChannel ←
    (if nonEmpty items || POST_WHEN_EMPTY cfg
     then postToSlackWebhook message else Ret false);
  dmsSent ←
    (if nonEmpty items && nonEmpty (DM_TARGETS cfg) then
       match slack with
       | None => Throw DmTargetsWithoutToken
       | Some _ => forEachTarget (DM_TARGETS cfg) message 0%nat
       end
     else Ret 0%nat);
  let r := {| dueCount := length items; channelPosted := postedToChannel;
              dmsSent := dmsSent |} in
  await (ConsoleLog (summary r));;
  Ret r.


End Job.

(** ** The earlier channel + DM variant of the script

    The repository also holds the previous revision of the job, headed
    "Notion → Slack reminders (Channel + DMs)". Its extraction and grouping
    helpers are the ones above with the property name fixed; its formatter
    is embedded here for comparison. *)

Module ChannelDms.

Definition getTypeName (page : Page) : string :=
  match prop_of page PROP_TYPE with
  | None => ""
  | Some prop =>
      if String.eqb (type prop) "select" then
        match select prop with
        | Some o => JS.orElse (name o) ""
        | None => ""
        end
      else ""
  end.

Definition getStatusName (page : Page) : string :=
  match prop_of page PROP_STATUS with
  | None => ""
  | Some prop =>
      if String.eqb (type prop) "select" then
        match select prop with
        | Some o => JS.orElse (name o) ""
        | None => ""
        end
      else if String.eqb (type prop) "status" then
        match status prop with
        | Some o => JS.orElse (name o) ""
        | None => ""
        end
      else ""
  end.

Definition formatDigest (lookaheadDays : JS.number)
           (dayjs_format : string -> string) (items : list Page) : string :=
  let header :=
    "🔔 *Privacy & Security Reminders* (next "
      +:+ JS.toString lookaheadDays +:+ " days)" in
  match items with
  | [] =>
      header +:+ JS.nl +:+ "✅ Nothing due in the next "
        +:+ JS.toString lookaheadDays +:+ " days."
  | _ =>
      let grouped := groupByDueDate dayjs_format items in
      let lines :=
        flat_map
          (fun '(dueDate, pages) =>
             (JS.nl +:+ "*" +:+ dueDate +:+ "*")
               :: List.map
                    (fun p =>
                       let title := getTitle p in
                       let type := getTypeName p in
                       let status := getStatusName p in
                       let prefix :=
                         if JS.truthy type then type +:+ " — " else "" in
                       let statusTxt :=
                         if JS.truthy status
                         then " _(Status: " +:+ status +:+ ")_" else "" in
                       "• " +:+ prefix +:+ title +:+ statusTxt)
                    pages)
          (JSMap.entries grouped) in
      header +:+ JS.nl +:+ JS.join JS.nl lines
  end.

End ChannelDms.

(** ** Start-up: reading [process.env]

    [process.env] is a map from names to strings; an unset variable is
    absent from it. *)

Module Startup.

Definition REQUIRED_ENVS : list string := ["NOTION_TOKEN"; "NOTION_DATABASE_ID"].

(** The loop over the required variables: the message of the error thrown
    for the first one that is unset or empty, [None] when the loop passes. *)
Fixpoint checkRequired (env : gmap string string) (keys : list string)
  : option string :=
  match keys with
  | [] => None
  | k :: rest =>
      if negb (JS.truthy (default "" (env !! k)))
      then Some ("Missing required env var: " +:+ k)
      else checkRequired env rest
  end.

(** The bytes of the class [[, \n\r\t]]. *)
Definition isSeparator (a : ascii) : bool :=
  let n := N_of_ascii a in
  ((n =? 44) || (n =? 32) || (n =? 10) || (n =? 13) || (n =? 9))%N.

(** [s.split(/[, \n\r\t]+/g)]: the pieces between the maximal runs of
    separators, an empty piece included where the string starts or ends with
    a separator. [cur] is the piece being read and [inRun] tells that the
    previous byte was a separator. *)
Fixpoint splitGo (cur : string) (inRun : bool) (s : string) : list string :=
  match s with
  | EmptyString => [cur]
  | String c r =>
      if isSeparator c then
        if inRun then splitGo EmptyString true r
        else cur :: splitGo EmptyString true r
      else splitGo (cur +:+ String c EmptyString) false r
  end.

Definition split (s : string) : list string := splitGo EmptyString false s.

(** [DM_TARGETS], from the value of [SLACK_DM_USER_IDS]. *)
Definition DM_TARGETS (v : option string) : list string :=
  List.filter JS.truthy (List.map JS.trim (split (Env.orDefault v ""))).

Definition isDigit (a : ascii) : bool :=
  let n := N_of_ascii a in ((48 <=? n) && (n <=? 57))%N.

(** The longest prefix of decimal digits. *)
Fixpoint takeDigits (s : string) : string :=
  match s with
  | EmptyString => EmptyString
  | String c r => if isDigit c then String c (takeDigits r) else EmptyString
  end.

(** [parseInt(s, 10)]: leading white space is skipped, then an optional sign
    and the longest run of digits are read; no digit gives NaN. A run of
    more than 15 digits can denote an integer that a JavaScript number only
    holds rounded; the model has no value for it and answers [None]. *)
Definition parseInt10 (s : string) : option JS.number :=
  let t := JS.trimStart s in
  let '(negative, body) :=
    match t with
    | String "-" r => (true, r)
    | String "+" r => (false, r)
    | _ => (false, t)
    end in
  let ds := takeDigits body in
  match ds with
  | EmptyString => Some JS.NaN
  | _ =>
      if (String.length ds <=? 15)%nat then
        match NilZero.uint_of_string ds with
        | Some d =>
            let n := Z.of_N (N.of_uint d) in
            Some (JS.Int (if negative then - n else n))
        | None => None
        end
      else None
  end.

(** [LOOKAHEAD_DAYS], from the value of the variable of that name. *)
Definition LOOKAHEAD_DAYS (v : option string) : option JS.number :=
  parseInt10 (Env.orDefault v "7").

End Startup.

(** ** Vocabulary of the properties *)

(** Modelled on the spec's words: the keys of a sequence in order of first
    occurrence. *)
Fixpoint firstOccurrences (keys : list string) : list string :=
  match keys with
  | [] => []
  | k :: rest =>
      k :: List.filter (fun k' => negb (String.eqb k' k)) (firstOccurrences rest)
  end.

(** Modelled on the spec's words: the group of key [k] holds the items with
    that key, in input order. *)
Definition groupOf (fmt : string -> string) (items : list Page) (k : string)
  : string * list Page :=
  (k, List.filter (fun p => String.eqb (dueKey fmt p) k) items).

Definition isDelay (c : Call) : bool :=
  match c with SetTimeout ms => Z.eqb ms 1100 | _ => false end.

Definition countDelays (t : list Call) : nat := length (List.filter isDelay t).

Definition isWebhookPost (c : Call) : bool :=
  match c with Fetch _ _ => true | _ => false end.

Definition isSlackApiCall (c : Call) : bool :=
  match c with
  | ConversationsOpen _ | ChatPostMessage _ _ => true
  | _ => false
  end.

(** A call of the DM loop carrying [text]: a conversation open, a message
    post with that text, or the pacing delay. *)
Definition isDmLoopCall (text : string) (c : Call) : Prop :=
  match c with
  | ConversationsOpen _ => True
  | ChatPostMessage _ t => t = text
  | SetTimeout ms => ms = 1100
  | _ => False
  end.

(** The text a delivery call carries, if the call is a delivery. *)
Definition deliveredText (c : Call) : option string :=
  match c with
  | Fetch _ text => Some text
  | ChatPostMessage _ text => Some text
  | _ => None
  end.

(** The items [fetchDueItems] keeps of a query response. *)
Definition notDone (cfg : Config) (p : Page) : bool :=
  negb (String.eqb (getStatusName p PROP_STATUS) (DONE_STATUS_NAME cfg)).

(** The two delivery steps of [main], named for the statements below. *)
Definition channelStep (cfg : Config) (items : list Page) (message : string)
  : Prog bool :=
  if nonEmpty items || POST_WHEN_EMPTY cfg
  then postToSlackWebhook cfg message else Ret false.

Definition dmStep (cfg : Config) (items : list Page) (message : string)
  : Prog nat :=
  if nonEmpty items && nonEmpty (DM_TARGETS cfg) then
    match slack cfg with
    | None => Throw DmTargetsWithoutToken
    | Some _ => forEachTarget cfg (DM_TARGETS cfg) message 0%nat
    end
  else Ret 0%nat.

(** The query [fetchDueItems] issues. *)
Definition theQuery (cfg : Config) : Call :=
  DatabasesQuery (DATABASE_ID cfg) (LOOKAHEAD_DAYS cfg).

(** ** Sample data *)

Definition samplePage (nm due st : string) : Page :=
  {| properties := Some (list_to_map [
       ("Name", {| type := "title"; title := Some [ {| plain_text := nm |} ];
                   date := None; select := None; status := None |});
       ("Next due", {| type := "date"; title := None;
                       date := Some {| start := due |};
                       select := None; status := None |});
       ("Status", {| type := "status"; title := None; date := None;
                     select := None; status := Some {| name := st |} |}) ]) |}.

Definition pageA : Page := samplePage "A" "2024-01-02" "Open".
Definition pageB : Page := samplePage "B" "2024-01-01" "Done".
Definition pageC : Page := samplePage "C" "2024-01-02" "".
Definition pageLower : Page := samplePage "L" "2024-01-03" "done".

Definition sampleConfig (url tok : string) (postWhenEmpty : bool)
           (targets : list string) : Config :=
  {| DATABASE_ID := "db"; SLACK_WEBHOOK_URL := url; SLACK_BOT_TOKEN := tok;
     LOOKAHEAD_DAYS := JS.Int 7; POST_WHEN_EMPTY := postWhenEmpty;
     DONE_STATUS_NAME := "Done"; DM_TARGETS := targets |}.

(** dayjs gives a date-only ISO string ["YYYY-MM-DD"] back unchanged; the
    samples only use such dates. *)
Definition formatDateOnly (due : string) : string := due.

(** A world in which the store returns [pages] and every call succeeds;
    opening a conversation with user [u] yields the conversation ["D" + u]. *)
Definition friendly (pages : list Page) (c : Call) (w : unit)
  : unit * (Error + Answer c) :=
  (w, match c return Error + Answer c with
      | DatabasesQuery _ _ => inr {| results := Some pages |}
      | Fetch _ _ => inr {| res_ok := true; res_status := 200; res_text := "ok" |}
      | ConversationsOpen u => inr (Some ("D" +:+ u))
      | ChatPostMessage _ _ => inr tt
      | SetTimeout _ => inr tt
      | ConsoleLog _ => inr tt
      | ConsoleError _ => inr tt
      end).

(** ** Vocabulary of the start-up properties *)

Fixpoint allBytes (P : ascii -> bool) (s : string) : bool :=
  match s with
  | EmptyString => true
  | String c r => P c && allBytes P r
  end.

(** A printable ASCII byte other than the comma and the blank: what a Slack
    identifier is made of. *)
Definition isIdByte (a : ascii) : bool :=
  let n := N_of_ascii a in
  ((33 <=? n) && (n <=? 126) && negb (n =? 44))%N.

Definition notSeparator (a : ascii) : bool := negb (Startup.isSeparator a).

(** A non-empty string of identifier bytes. *)
Definition cleanTarget (t : string) : Prop :=
  t <> "" /\ allBytes isIdByte t = true.

(** A possibly empty run of separators. *)
Definition separatorRun (s : string) : Prop :=
  allBytes Startup.isSeparator s = true.

(** A value of [SLACK_DM_USER_IDS] written as targets, each followed by
    its separators. *)
Fixpoint writeTargets (tss : list (string * string)) : string :=
  match tss with
  | [] => EmptyString
  | (t, sep) :: rest => t +:+ sep +:+ writeTargets rest
  end.

(** Every target is clean and followed by a run of separators, which is not
    empty unless the target is the last one. *)
Fixpoint wellSeparated (tss : list (string * string)) : Prop :=
  match tss with
  | [] => True
  | (t, sep) :: rest =>
      cleanTarget t /\ separatorRun sep /\
      (rest <> [] -> sep <> "") /\ wellSeparated rest
  end.

(** ** Vocabulary of the delivery properties *)

Definition isPost (c : Call) : bool :=
  match c with ChatPostMessage _ _ => true | _ => false end.

Definition isOpen (c : Call) : bool :=
  match c with ConversationsOpen _ => true | _ => false end.

Definition isSummary (c : Call) : bool :=
  match c with ConsoleLog _ => true | _ => false end.


(** ** Running sequenced programs *)

Section RunLemmas.
Context {W : Type}.
Context (handle : forall c : Call, W -> W * (Error + Answer c)).

Lemma run_bind {A B : Type} (p : Prog A) (f : A -> Prog B) (w : W) :
  run handle (p ≫= f) w =
  match result (run handle p w) with
  | inl e => {| trace := trace (run handle p w);
                final := final (run handle p w); result := inl e |}
  | inr a =>
      let r' := run handle (f a) (final (run handle p w)) in
      {| trace := trace (run handle p w) ++ trace r';
         final := final r'; result := result r' |}
  end.
Proof.
  revert w. induction p as [a | e | c k IH]; intros w.
  - cbn. destruct (run handle (f a) w); reflexivity.
  - reflexivity.
  - unfold mbind, Prog_bind in *. cbn.
    destruct (handle c w) as [w' r]. cbn. rewrite IH.
    destruct (result (run handle (k r) w')); reflexivity.
Qed.

Lemma run_await (c : Call) (w : W) :
  run handle (await c) w =
  {| trace := [c]; final := fst (handle c w); result := snd (handle c w) |}.
Proof.
  unfold await. cbn. destruct (handle c w) as [w' [e | x]]; reflexivity.
Qed.

End RunLemmas.

(** ** Trimming *)

Module JSFacts.
Import JS.

Lemma trimStart_drops_one (w s : string) :
  In w wsEncodings -> trimStart (w +:+ s) = trimStart s.
Proof.
  unfold wsEncodings. cbn [In]. intros H.
  repeat (destruct H as [<- | H]; [destruct s; reflexivity |]).
  contradiction.
Qed.

Lemma trimStart_whitespace (s : string) :
  WhiteSpaceOnly s -> trimStart s = "".
Proof.
  induction 1 as [| w s Hw _ IH]; [reflexivity |].
  rewrite trimStart_drops_one by assumption. exact IH.
Qed.

Lemma trim_whitespace (s : string) : WhiteSpaceOnly s -> trim s = "".
Proof.
  intros H. unfold trim. rewrite trimStart_whitespace by assumption.
  reflexivity.
Qed.

(** What [strip] returns starts with no character of [encs]. *)
Lemma strip_no_leading (encs : list string) (s : string) :
  leading encs "" = None ->
  forall skip, leading encs (strip encs skip s) = None.
Proof.
  intros Hnil. induction s as [| c r IH]; intros skip.
  - destruct skip; cbn; rewrite ?Hnil; auto.
  - destruct skip as [| k]; [| apply IH].
    cbn [strip]. destruct (leading encs (String c r)) eqn:E.
    + apply IH.
    + exact E.
Qed.

Lemma trimStart_no_leading (s : string) :
  leading wsEncodings (trimStart s) = None.
Proof. apply strip_no_leading. reflexivity. Qed.

(** [strip] only removes a prefix. *)
Lemma strip_suffix (encs : list string) (s : string) :
  forall skip, exists pre, s = pre +:+ strip encs skip s.
Proof.
  induction s as [| c r IH]; intros skip.
  - exists "". destruct skip; cbn; [destruct (leading encs "") |]; reflexivity.
  - destruct skip as [| k].
    + cbn [strip]. destruct (leading encs (String c r)) as [w |].
      * destruct (IH (Nat.pred (String.length w))) as [pre Hpre].
        exists (String c pre).
        change (String c r
                = String c (pre +:+ strip encs (Nat.pred (String.length w)) r)).
        f_equal. exact Hpre.
      * exists "". reflexivity.
    + destruct (IH k) as [pre Hpre].
      exists (String c pre).
      change (String c r = String c (pre +:+ strip encs k r)).
      f_equal. exact Hpre.
Qed.

Lemma orElse_truthy (s d : string) : d <> "" -> orElse s d <> "".
Proof.
  intros Hd. unfold orElse, truthy.
  destruct (String.eqb_spec s ""); cbn; assumption.
Qed.

End JSFacts.

(** ** Title extraction *)

(** C7. For every page the title extractor yields a non-empty string. With
    the title property absent, or of a type other than ["title"], it yields
    the placeholder ["(Untitled)"]. Otherwise it yields the trimmed
    concatenation of the fragments' plain texts, and the placeholder when
    that is empty, in particular when the fragments hold white space only.
    [getTitle] is a total function: no input makes it throw. *)
Theorem getTitle_total (page : Page) :
  getTitle page <> "" /\
  (prop_of page PROP_TITLE = None -> getTitle page = "(Untitled)") /\
  (forall prop, prop_of page PROP_TITLE = Some prop ->
     type prop <> "title" -> getTitle page = "(Untitled)") /\
  (forall prop, prop_of page PROP_TITLE = Some prop -> type prop = "title" ->
     let text := JS.join "" (List.map plain_text (default [] (title prop))) in
     (JS.trim text = "" -> getTitle page = "(Untitled)") /\
     (JS.trim text <> "" -> getTitle page = JS.trim text) /\
     (JS.WhiteSpaceOnly text -> getTitle page = "(Untitled)")).
Proof.
  unfold getTitle. repeat split.
  - destruct (prop_of page PROP_TITLE) as [prop |]; [| discriminate].
    destruct (negb (String.eqb (type prop) "title")); [discriminate |].
    apply JSFacts.orElse_truthy. discriminate.
  - intros ->. reflexivity.
  - intros prop -> Hty. apply String.eqb_neq in Hty. rewrite Hty. reflexivity.
  - rewrite H, H0. cbn. intros ->. reflexivity.
  - rewrite H, H0. cbn. intros Hne. unfold JS.orElse, JS.truthy.
    apply String.eqb_neq in Hne. rewrite Hne. reflexivity.
  - rewrite H, H0. cbn. intros Hws.
    rewrite (JSFacts.trim_whitespace _ Hws). reflexivity.
Qed.

Lemma getTitle_total_witness :
  getTitle (samplePage "  Rotate keys " "2024-01-02" "Open") = "Rotate keys" /\
  getTitle (samplePage "   " "2024-01-02" "Open") = "(Untitled)" /\
  getTitle {| properties := None |} = "(Untitled)".
Proof.
  split; [| split].
  - pose proof (getTitle_total (samplePage "  Rotate keys " "2024-01-02" "Open"))
      as (_ & _ & _ & H).
    destruct (H {| type := "title";
                   title := Some [ {| plain_text := "  Rotate keys " |} ];
                   date := None; select := None; status := None |}
                eq_refl eq_refl) as (_ & Hkeep & _).
    apply Hkeep. vm_compute. discriminate.
  - pose proof (getTitle_total (samplePage "   " "2024-01-02" "Open"))
      as (_ & _ & _ & H).
    destruct (H {| type := "title";
                   title := Some [ {| plain_text := "   " |} ];
                   date := None; select := None; status := None |}
                eq_refl eq_refl) as (Hempty & _ & _).
    apply Hempty. vm_compute. reflexivity.
  - pose proof (getTitle_total {| properties := None |}) as (_ & Hnone & _).
    apply Hnone. reflexivity.
Defined.

(** ** Grouping by due date *)

Section Grouping.
Context (fmt : string -> string).

Lemma firstOccurrences_In (ks : list string) (k : string) :
  In k (firstOccurrences ks) <-> In k ks.
Proof.
  induction ks as [| a ks IH]; cbn [firstOccurrences In]; [tauto |].
  pose proof (List.filter_In (fun k' => negb (String.eqb k' a)) k
                (firstOccurrences ks)) as F.
  rewrite negb_true_iff, String.eqb_neq in F.
  destruct (String.eqb_spec k a) as [-> | Hne]; [tauto |].
  intuition congruence.
Qed.

Lemma firstOccurrences_NoDup (ks : list string) :
  List.NoDup (firstOccurrences ks).
Proof.
  induction ks as [| a ks IH]; cbn; constructor.
  - intros H. apply List.filter_In in H. destruct H as [_ H].
    rewrite String.eqb_refl in H. discriminate.
  - apply List.NoDup_filter. exact IH.
Qed.

Lemma firstOccurrences_snoc (ks : list string) (k : string) :
  firstOccurrences (ks ++ [k]) =
  if existsb (String.eqb k) ks then firstOccurrences ks
  else firstOccurrences ks ++ [k].
Proof.
  induction ks as [| a ks IH]; [reflexivity |].
  cbn. rewrite IH.
  destruct (String.eqb_spec k a) as [-> | Hne]; cbn.
  - destruct (existsb (String.eqb a) ks); [reflexivity |].
    rewrite List.filter_app. cbn. rewrite String.eqb_refl. cbn.
    rewrite List.app_nil_r. reflexivity.
  - destruct (existsb (String.eqb k) ks); [reflexivity |].
    rewrite List.filter_app. cbn.
    apply String.eqb_neq in Hne. rewrite Hne. reflexivity.
Qed.

Lemma has_groups (items : list Page) (ks : list string) (k : string) :
  JSMap.has k (List.map (groupOf fmt items) ks) = existsb (String.eqb k) ks.
Proof.
  unfold JSMap.has. induction ks as [| a ks IH]; [reflexivity |].
  cbn. rewrite IH, (String.eqb_sym a k). reflexivity.
Qed.

Lemma existsb_firstOccurrences (ks : list string) (k : string) :
  existsb (String.eqb k) (firstOccurrences ks) = existsb (String.eqb k) ks.
Proof.
  apply eq_true_iff_eq. rewrite !List.existsb_exists.
  split; intros (x & Hx & E); exists x; split; auto;
    apply firstOccurrences_In; assumption.
Qed.

Lemma filter_absent_key (items : list Page) (k : string) :
  existsb (String.eqb k) (List.map (dueKey fmt) items) = false ->
  List.filter (fun p => String.eqb (dueKey fmt p) k) items = [].
Proof.
  induction items as [| p items IH]; [reflexivity |].
  cbn. rewrite orb_false_iff. intros [Hp Hrest].
  rewrite String.eqb_sym, Hp. apply IH. exact Hrest.
Qed.

(** One iteration of the loop body on the groups built so far. *)
Lemma group_step (items : list Page) (p : Page) :
  let groups := List.map (groupOf fmt items)
                         (firstOccurrences (List.map (dueKey fmt) items)) in
  JSMap.push (dueKey fmt p) p
    (if negb (JSMap.has (dueKey fmt p) groups)
     then JSMap.set (dueKey fmt p) [] groups else groups)
  = List.map (groupOf fmt (items ++ [p]))
             (firstOccurrences (List.map (dueKey fmt) (items ++ [p]))).
Proof.
  cbn zeta. rewrite List.map_app. cbn [List.map]. rewrite firstOccurrences_snoc.
  unfold JSMap.set.
  rewrite has_groups, existsb_firstOccurrences.
  destruct (existsb (String.eqb (dueKey fmt p)) (List.map (dueKey fmt) items))
    eqn:E; cbn [negb].
  - unfold JSMap.push. rewrite List.map_map. apply List.map_ext. intros k.
    unfold groupOf. cbn [fst snd]. rewrite List.filter_app.
    cbn [List.filter]. rewrite (String.eqb_sym k (dueKey fmt p)).
    destruct (String.eqb (dueKey fmt p) k); [reflexivity |].
    rewrite List.app_nil_r. reflexivity.
  - unfold JSMap.push. rewrite !List.map_app, List.map_map. f_equal.
    + apply List.map_ext_in. intros k Hk.
      unfold groupOf. cbn [fst snd]. rewrite List.filter_app.
      cbn [List.filter]. rewrite (String.eqb_sym k (dueKey fmt p)).
      destruct (String.eqb_spec (dueKey fmt p) k) as [<- | _].
      * apply (proj1 (firstOccurrences_In _ _)) in Hk.
        assert (existsb (String.eqb (dueKey fmt p))
                        (List.map (dueKey fmt) items) = true) as Habs.
        { apply List.existsb_exists. exists (dueKey fmt p).
          split; [assumption | apply String.eqb_refl]. }
        congruence.
      * rewrite List.app_nil_r. reflexivity.
    + cbn. rewrite String.eqb_refl. unfold groupOf. cbn [fst snd].
      rewrite List.filter_app, (filter_absent_key items (dueKey fmt p) E).
      cbn. rewrite String.eqb_refl. reflexivity.
Qed.

Lemma groupByDueDate_spec (items : list Page) :
  groupByDueDate fmt items =
  List.map (groupOf fmt items) (firstOccurrences (List.map (dueKey fmt) items)).
Proof.
  unfold groupByDueDate.
  induction items as [| p items IH] using rev_ind; [reflexivity |].
  rewrite List.fold_left_app. cbn [fold_left]. rewrite IH.
  apply group_step.
Qed.


End Grouping.

(** C5. Grouping is stable: the groups are the due-date keys in order of
    first occurrence in the input, and each group holds the input's items of
    that key in input order. For [A(2024-01-02), B(2024-01-01),
    C(2024-01-02)] the groups are "2024-01-02": [A, C] and then
    "2024-01-01": [B]. *)
Theorem groupByDueDate_stable (fmt : string -> string) (items : list Page) :
  groupByDueDate fmt items =
  List.map (groupOf fmt items) (firstOccurrences (List.map (dueKey fmt) items))
  /\
  (forall A B C : Page,
      dueKey fmt A = "2024-01-02" -> dueKey fmt B = "2024-01-01" ->
      dueKey fmt C = "2024-01-02" ->
      groupByDueDate fmt [A; B; C] =
      [("2024-01-02", [A; C]); ("2024-01-01", [B])]).
Proof.
  split; [apply groupByDueDate_spec |].
  intros A B C HA HB HC. rewrite groupByDueDate_spec.
  unfold groupOf. cbn [List.map firstOccurrences List.filter].
  rewrite HA, HB, HC. reflexivity.
Qed.

Lemma groupByDueDate_stable_witness :
  groupByDueDate formatDateOnly [pageA; pageB; pageC] =
  [("2024-01-02", [pageA; pageC]); ("2024-01-01", [pageB])].
Proof.
  apply (proj2 (groupByDueDate_stable formatDateOnly [])); reflexivity.
Defined.

(** The order the spec's example gives, "2024-01-01" before "2024-01-02",
    is not the order of the groups. *)
Lemma groupByDueDate_example_order :
  List.map fst (groupByDueDate formatDateOnly [pageA; pageB; pageC])
  = ["2024-01-02"; "2024-01-01"] /\
  groupByDueDate formatDateOnly [pageA; pageB; pageC]
  <> [("2024-01-01", [pageB]); ("2024-01-02", [pageA; pageC])].
Proof.
  split; [reflexivity |].
  intros H. apply (f_equal (List.map fst)) in H. discriminate H.
Qed.

(** C6. For the empty sequence with a lookahead of 7 days [formatDigest]
    returns two lines, but their leading symbols are not the bell and the
    check mark: the literals of the script hold the bytes of those symbols
    read as Windows-1252 and encoded again. The earlier variant of the
    script returns the intended message. *)
Theorem formatDigest_empty_bytes (cfg : Config) (fmt : string -> string) :
  formatDigest cfg fmt [] =
  ("ðŸ”” *Privacy & Security Reminders* (next "
     +:+ JS.toString (LOOKAHEAD_DAYS cfg) +:+ " days)")
    +:+ JS.nl
    +:+ "âœ… Nothing due in the next "
    +:+ JS.toString (LOOKAHEAD_DAYS cfg) +:+ " days."
  /\
  list_byte_of_string
    (substring 0 10 (formatDigest (sampleConfig "" "" true []) fmt []))
  = [ Byte.xc3; Byte.xb0; Byte.xc5; Byte.xb8; Byte.xe2; Byte.x80; Byte.x9d;
      Byte.xe2; Byte.x80; Byte.x9d ]
  /\
  list_byte_of_string (substring 0 4 "🔔 *Privacy")
  = [ Byte.xf0; Byte.x9f; Byte.x94; Byte.x94 ]
  /\
  formatDigest (sampleConfig "" "" true []) fmt [] <>
  "🔔 *Privacy & Security Reminders* (next 7 days)" +:+ JS.nl
    +:+ "✅ Nothing due in the next 7 days."
  /\
  ChannelDms.formatDigest (JS.Int 7) fmt [] =
  "🔔 *Privacy & Security Reminders* (next 7 days)" +:+ JS.nl
    +:+ "✅ Nothing due in the next 7 days.".
Proof.
  repeat split; try reflexivity.
  vm_compute. discriminate.
Qed.

(** ** Runs of the job's functions *)

Section RunJob.
Context {W : Type}.
Context (handle : forall c : Call, W -> W * (Error + Answer c)).
Context (cfg : Config) (fmt : string -> string).

Lemma run_fetchDueItems (w : W) :
  run handle (fetchDueItems cfg) w =
  {| trace := [theQuery cfg];
     final := fst (handle (theQuery cfg) w);
     result :=
       match snd (handle (theQuery cfg) w) with
       | inl e => inl e
       | inr response =>
           inr (List.filter (notDone cfg) (default [] (results response)))
       end |}.
Proof.
  unfold fetchDueItems, theQuery, await. cbn.
  destruct (handle _ w) as [w' [e | response]]; reflexivity.
Qed.

Lemma run_postToSlackWebhook (text : string) (w : W) :
  run handle (postToSlackWebhook cfg text) w =
  if JS.truthy (SLACK_WEBHOOK_URL cfg) then
    let c := Fetch (SLACK_WEBHOOK_URL cfg) text in
    {| trace := [c]; final := fst (handle c w);
       result :=
         match snd (handle c w) with
         | inl e => inl e
         | inr res =>
             if res_ok res then inr true
             else inl (WebhookFailed (res_status res) (res_text res))
         end |}
  else {| trace := []; final := w; result := inr false |}.
Proof.
  unfold postToSlackWebhook.
  destruct (JS.truthy (SLACK_WEBHOOK_URL cfg)); cbn [negb]; [| reflexivity].
  unfold await. cbn.
  destruct (handle _ w) as [w' [e | res]]; [reflexivity |].
  cbn. destruct (res_ok res); reflexivity.
Qed.

Lemma run_post (channel text : string) (w : W) :
  run handle (await (ChatPostMessage channel text);; Ret tt) w =
  let c := ChatPostMessage channel text in
  {| trace := [c]; final := fst (handle c w);
     result := match snd (handle c w) with
               | inl e => inl e
               | inr _ => inr tt
               end |}.
Proof.
  unfold await. cbn.
  destruct (handle _ w) as [w' [e | []]]; reflexivity.
Qed.

Lemma slack_Some :
  SLACK_BOT_TOKEN cfg <> "" ->
  slack cfg = Some {| token := SLACK_BOT_TOKEN cfg |}.
Proof.
  intros H. unfold slack, JS.truthy.
  apply String.eqb_neq in H. rewrite H. reflexivity.
Qed.

Lemma slack_None : SLACK_BOT_TOKEN cfg = "" -> slack cfg = None.
Proof. intros H. unfold slack, JS.truthy. rewrite H. reflexivity. Qed.

Lemma run_openBotDmWithUser (userId : string) (w : W) :
  SLACK_BOT_TOKEN cfg <> "" ->
  run handle (openBotDmWithUser cfg userId) w =
  let c := ConversationsOpen userId in
  {| trace := [c]; final := fst (handle c w);
     result :=
       match snd (handle c w) with
       | inl e => inl e
       | inr (Some id) =>
           if JS.truthy id then inr id else inl (CouldNotOpenDm userId)
       | inr None => inl (CouldNotOpenDm userId)
       end |}.
Proof.
  intros Htok. unfold openBotDmWithUser. rewrite (slack_Some Htok).
  unfold await. cbn.
  destruct (handle _ w) as [w' [e | [id |]]]; try reflexivity.
  cbn. destruct (JS.truthy id); reflexivity.
Qed.

Lemma run_dmTarget (target text : string) (w : W) :
  SLACK_BOT_TOKEN cfg <> "" ->
  run handle (dmTarget cfg target text) w =
  if JS.startsWith target "D" then
    let c := ChatPostMessage target text in
    {| trace := [c]; final := fst (handle c w);
       result := match snd (handle c w) with
                 | inl e => inl e
                 | inr _ => inr tt
                 end |}
  else if JS.startsWith target "U" then
    let o := ConversationsOpen target in
    match snd (handle o w) with
    | inr (Some id) =>
        if JS.truthy id then
          let c := ChatPostMessage id text in
          {| trace := [o; c]; final := fst (handle c (fst (handle o w)));
             result := match snd (handle c (fst (handle o w))) with
                       | inl e => inl e
                       | inr _ => inr tt
                       end |}
        else {| trace := [o]; final := fst (handle o w);
                result := inl (CouldNotOpenDm target) |}
    | inr None => {| trace := [o]; final := fst (handle o w);
                     result := inl (CouldNotOpenDm target) |}
    | inl e => {| trace := [o]; final := fst (handle o w); result := inl e |}
    end
  else {| trace := []; final := w; result := inl (InvalidDmTarget target) |}.
Proof.
  intros Htok. unfold dmTarget. rewrite (slack_Some Htok).
  destruct (JS.startsWith target "D"); [apply run_post |].
  destruct (JS.startsWith target "U"); [| reflexivity].
  rewrite run_bind, (run_openBotDmWithUser target w Htok).
  cbn [result trace final]. cbn zeta.
  destruct (snd (handle (ConversationsOpen target) w)) as [e | [id |]];
    try reflexivity.
  destruct (JS.truthy id); [| reflexivity].
  cbn zeta. rewrite run_post. reflexivity.
Qed.

Lemma run_dmTarget_no_client (target text : string) (w : W) :
  SLACK_BOT_TOKEN cfg = "" ->
  run handle (dmTarget cfg target text) w =
  {| trace := []; final := w; result := inl MissingBotToken |}.
Proof. intros H. unfold dmTarget. rewrite (slack_None H). reflexivity. Qed.

Lemma dmTarget_trace (target text : string) (w : W) :
  Forall (isDmLoopCall text) (trace (run handle (dmTarget cfg target text) w)).
Proof.
  destruct (String.eqb_spec (SLACK_BOT_TOKEN cfg) "") as [E | Htok].
  - rewrite (run_dmTarget_no_client _ _ _ E). constructor.
  - rewrite (run_dmTarget _ _ _ Htok).
    destruct (JS.startsWith target "D"); [repeat constructor |].
    destruct (JS.startsWith target "U"); [| constructor].
    cbn zeta.
    destruct (snd (handle (ConversationsOpen target) w)) as [e | [id |]];
      try (repeat constructor).
    destruct (JS.truthy id); repeat constructor.
Qed.

Lemma dmTarget_no_delay (target text : string) (w : W) :
  countDelays (trace (run handle (dmTarget cfg target text) w)) = 0%nat.
Proof.
  destruct (String.eqb_spec (SLACK_BOT_TOKEN cfg) "") as [E | Htok].
  - rewrite (run_dmTarget_no_client _ _ _ E). reflexivity.
  - rewrite (run_dmTarget _ _ _ Htok).
    destruct (JS.startsWith target "D"); [reflexivity |].
    destruct (JS.startsWith target "U"); [| reflexivity].
    cbn zeta.
    destruct (snd (handle (ConversationsOpen target) w)) as [e | [id |]];
      try reflexivity.
    destruct (JS.truthy id); reflexivity.
Qed.

Lemma run_forEachTarget_cons (target : string) (rest : list string)
      (message : string) (n : nat) (w : W) :
  run handle (forEachTarget cfg (target :: rest) message n) w =
  let r1 := run handle (dmTarget cfg target message) w in
  match result r1 with
  | inl e => {| trace := trace r1; final := final r1; result := inl e |}
  | inr _ =>
      let d := handle (SetTimeout 1100) (final r1) in
      match snd d with
      | inl e => {| trace := trace r1 ++ [SetTimeout 1100]; final := fst d;
                    result := inl e |}
      | inr _ =>
          let r2 := run handle (forEachTarget cfg rest message (S n)) (fst d) in
          {| trace := trace r1 ++ SetTimeout 1100 :: trace r2;
             final := final r2; result := result r2 |}
      end
  end.
Proof.
  cbn [forEachTarget]. rewrite run_bind.
  destruct (result (run handle (dmTarget cfg target message) w));
    [reflexivity |].
  cbn zeta. unfold await. cbn [mbind Prog_bind bind run].
  destruct (handle (SetTimeout 1100) _) as [w' [e | []]]; reflexivity.
Qed.

Lemma countDelays_app (t1 t2 : list Call) :
  countDelays (t1 ++ t2) = (countDelays t1 + countDelays t2)%nat.
Proof. unfold countDelays. rewrite List.filter_app. apply length_app. Qed.

Lemma forEachTarget_trace (targets : list string) (message : string) :
  forall (n : nat) (w : W),
    Forall (isDmLoopCall message)
           (trace (run handle (forEachTarget cfg targets message n) w)).
Proof.
  induction targets as [| target rest IH]; intros n w; [constructor |].
  rewrite run_forEachTarget_cons. cbn zeta.
  pose proof (dmTarget_trace target message w) as H1.
  destruct (result (run handle (dmTarget cfg target message) w));
    cbn [trace]; [exact H1 |].
  destruct (snd (handle (SetTimeout 1100) _)); cbn [trace].
  - apply Forall_app. split; [exact H1 | repeat constructor].
  - apply Forall_app. split; [exact H1 |].
    constructor; [reflexivity | apply IH].
Qed.

(** A loop that completes sent to every target and slept after each one,
    the last included. *)
Lemma forEachTarget_completed (targets : list string) (message : string) :
  forall (n n' : nat) (w : W),
    result (run handle (forEachTarget cfg targets message n) w) = inr n' ->
    n' = (n + length targets)%nat /\
    countDelays (trace (run handle (forEachTarget cfg targets message n) w))
    = length targets /\
    (targets <> [] ->
     exists pre,
       trace (run handle (forEachTarget cfg targets message n) w)
       = pre ++ [SetTimeout 1100]).
Proof.
  induction targets as [| target rest IH]; intros n n' w.
  - cbn. intros [= <-]. repeat split; [lia | congruence].
  - rewrite run_forEachTarget_cons. cbn zeta.
    pose proof (dmTarget_no_delay target message w) as H0.
    destruct (result (run handle (dmTarget cfg target message) w));
      cbn [result trace]; [discriminate |].
    destruct (snd (handle (SetTimeout 1100) _)); cbn [result trace];
      [discriminate |].
    intros Hres. destruct (IH _ _ _ Hres) as (Hn & Hdel & Hlast).
    split; [cbn [length]; lia |]. split.
    + rewrite countDelays_app, H0.
      change (countDelays (SetTimeout 1100 :: ?t))
        with (S (countDelays t)).
      rewrite Hdel. reflexivity.
    + intros _. destruct rest as [| t2 rest'].
      * cbn. exists (trace (run handle (dmTarget cfg target message) w)).
        reflexivity.
      * destruct Hlast as [pre Hpre]; [discriminate |].
        rewrite Hpre.
        exists (trace (run handle (dmTarget cfg target message) w)
                  ++ SetTimeout 1100 :: pre).
        rewrite <- app_assoc. reflexivity.
Qed.

End RunJob.

(** ** Dispatch of one DM target *)

(** C8. With the Slack client configured, what [dmTarget] does is decided by
    the first letter of the target. A target starting with "D" gets one
    [chat.postMessage] to that very id and no [conversations.open]. A target
    starting with "U" gets exactly one [conversations.open] and then, when an
    id comes back, one [chat.postMessage] to the id returned; when none
    comes back the call fails after the open. Any other target makes no call
    and throws the invalid-target error. *)
Theorem dmTarget_dispatch {W : Type}
        (handle : forall c : Call, W -> W * (Error + Answer c))
        (cfg : Config) (target text : string) (w : W) :
  SLACK_BOT_TOKEN cfg <> "" ->
  let r := run handle (dmTarget cfg target text) w in
  (JS.startsWith target "D" = true ->
     trace r = [ChatPostMessage target text] /\
     result r = match snd (handle (ChatPostMessage target text) w) with
                | inl e => inl e
                | inr _ => inr tt
                end) /\
  (JS.startsWith target "D" = false -> JS.startsWith target "U" = true ->
     let opened := handle (ConversationsOpen target) w in
     match snd opened with
     | inr (Some id) =>
         if JS.truthy id then
           trace r = [ConversationsOpen target; ChatPostMessage id text] /\
           result r = match snd (handle (ChatPostMessage id text) (fst opened)) with
                      | inl e => inl e
                      | inr _ => inr tt
                      end
         else trace r = [ConversationsOpen target] /\
              result r = inl (CouldNotOpenDm target)
     | inr None => trace r = [ConversationsOpen target] /\
                   result r = inl (CouldNotOpenDm target)
     | inl e => trace r = [ConversationsOpen target] /\ result r = inl e
     end) /\
  (JS.startsWith target "D" = false -> JS.startsWith target "U" = false ->
     trace r = [] /\ result r = inl (InvalidDmTarget target)).
Proof.
  intros Htok r. subst r. rewrite (run_dmTarget handle cfg target text w Htok).
  split; [| split].
  - intros ->. split; reflexivity.
  - intros -> ->. cbn zeta.
    destruct (snd (handle (ConversationsOpen target) w)) as [e | [id |]];
      [split; reflexivity | | split; reflexivity].
    destruct (JS.truthy id); split; reflexivity.
  - intros -> ->. split; reflexivity.
Qed.

Lemma dmTarget_dispatch_witness :
  trace (run (friendly []) (dmTarget (sampleConfig "" "xoxb-1" true [])
                                     "D123" "hello") tt)
  = [ChatPostMessage "D123" "hello"] /\
  trace (run (friendly []) (dmTarget (sampleConfig "" "xoxb-1" true [])
                                     "U456" "hello") tt)
  = [ConversationsOpen "U456"; ChatPostMessage "DU456" "hello"] /\
  result (run (friendly []) (dmTarget (sampleConfig "" "xoxb-1" true [])
                                      "C789" "hello") tt)
  = inl (InvalidDmTarget "C789").
Proof.
  assert (SLACK_BOT_TOKEN (sampleConfig "" "xoxb-1" true []) <> "") as Htok
    by discriminate.
  split; [| split].
  - apply (dmTarget_dispatch (friendly []) _ "D123" "hello" tt Htok).
    reflexivity.
  - apply (proj1 (proj2 (dmTarget_dispatch (friendly []) _ "U456" "hello" tt Htok)));
      reflexivity.
  - apply (proj2 (proj2 (dmTarget_dispatch (friendly []) _ "C789" "hello" tt Htok)));
      reflexivity.
Defined.

(** ** Runs of [main] *)

Section RunMain.
Context {W : Type}.
Context (handle : forall c : Call, W -> W * (Error + Answer c)).
Context (cfg : Config) (fmt : string -> string).

Lemma main_steps :
  main cfg fmt =
  (items ← fetchDueItems cfg;
   let message := formatDigest cfg fmt items in
   postedToChannel ← channelStep cfg items message;
   dmsSent ← dmStep cfg items message;
   let r := {| dueCount := length items; channelPosted := postedToChannel;
               dmsSent := dmsSent |} in
   await (ConsoleLog (summary r));; Ret r).
Proof. reflexivity. Qed.

Lemma run_main (w : W) :
  run handle (main cfg fmt) w =
  let q := handle (theQuery cfg) w in
  match snd q with
  | inl e => {| trace := [theQuery cfg]; final := fst q; result := inl e |}
  | inr response =>
      let items := List.filter (notDone cfg) (default [] (results response)) in
      let message := formatDigest cfg fmt items in
      let r2 := run handle (channelStep cfg items message) (fst q) in
      match result r2 with
      | inl e => {| trace := theQuery cfg :: trace r2; final := final r2;
                    result := inl e |}
      | inr posted =>
          let r3 := run handle (dmStep cfg items message) (final r2) in
          match result r3 with
          | inl e => {| trace := theQuery cfg :: trace r2 ++ trace r3;
                        final := final r3; result := inl e |}
          | inr sent =>
              let r := {| dueCount := length items; channelPosted := posted;
                          dmsSent := sent |} in
              let l := handle (ConsoleLog (summary r)) (final r3) in
              {| trace := theQuery cfg :: trace r2 ++ trace r3
                            ++ [ConsoleLog (summary r)];
                 final := fst l;
                 result := match snd l with
                           | inl e => inl e
                           | inr _ => inr r
                           end |}
          end
      end
  end.
Proof.
  rewrite main_steps, run_bind, run_fetchDueItems. cbn [result trace final].
  cbn zeta.
  destruct (snd (handle (theQuery cfg) w)) as [e | response]; [reflexivity |].
  rewrite run_bind.
  destruct (result (run handle (channelStep cfg _ _) _)) as [e | posted];
    [reflexivity |].
  cbn zeta. rewrite run_bind.
  destruct (result (run handle (dmStep cfg _ _) _)) as [e | sent];
    [reflexivity |].
  cbn zeta. unfold await. cbn [mbind Prog_bind bind run].
  destruct (handle (ConsoleLog _) _) as [w' [e | []]]; reflexivity.
Qed.

Lemma run_channelStep (items : list Page) (message : string) (w : W) :
  run handle (channelStep cfg items message) w =
  if nonEmpty items || POST_WHEN_EMPTY cfg
  then run handle (postToSlackWebhook cfg message) w
  else {| trace := []; final := w; result := inr false |}.
Proof.
  unfold channelStep.
  destruct (nonEmpty items || POST_WHEN_EMPTY cfg); reflexivity.
Qed.

(** The channel step makes at most the one webhook post, with [message]. *)
Lemma channelStep_trace (items : list Page) (message : string) (w : W) :
  trace (run handle (channelStep cfg items message) w) =
  if (nonEmpty items || POST_WHEN_EMPTY cfg)
       && JS.truthy (SLACK_WEBHOOK_URL cfg)
  then [Fetch (SLACK_WEBHOOK_URL cfg) message] else [].
Proof.
  rewrite run_channelStep, run_postToSlackWebhook.
  destruct (nonEmpty items || POST_WHEN_EMPTY cfg); [| reflexivity].
  destruct (JS.truthy (SLACK_WEBHOOK_URL cfg)); reflexivity.
Qed.

Lemma channelStep_posted (items : list Page) (message : string) (w : W)
      (posted : bool) :
  result (run handle (channelStep cfg items message) w) = inr posted ->
  posted = (nonEmpty items || POST_WHEN_EMPTY cfg)
             && JS.truthy (SLACK_WEBHOOK_URL cfg).
Proof.
  rewrite run_channelStep, run_postToSlackWebhook.
  destruct (nonEmpty items || POST_WHEN_EMPTY cfg); [| cbn; congruence].
  destruct (JS.truthy (SLACK_WEBHOOK_URL cfg)); [| cbn; congruence].
  cbn [result andb]. cbn zeta. intros H.
  destruct (snd (handle (Fetch (SLACK_WEBHOOK_URL cfg) message) w))
    as [e | res]; [discriminate H |].
  destruct (res_ok res); [congruence | discriminate H].
Qed.

(** The DM step only makes DM-loop calls carrying [message]. *)
Lemma dmStep_trace (items : list Page) (message : string) (w : W) :
  Forall (isDmLoopCall message)
         (trace (run handle (dmStep cfg items message) w)).
Proof.
  unfold dmStep.
  destruct (nonEmpty items && nonEmpty (DM_TARGETS cfg)); [| constructor].
  destruct (slack cfg); [apply forEachTarget_trace | constructor].
Qed.

(** Shape of the trace of a run whose query succeeded: the query, the
    channel step's calls, DM-loop calls, and the summary line if the run
    got that far. *)
Lemma main_trace (w : W) (response : QueryResponse) :
  snd (handle (theQuery cfg) w) = inr response ->
  let items := List.filter (notDone cfg) (default [] (results response)) in
  let message := formatDigest cfg fmt items in
  exists t3 t4,
    trace (run handle (main cfg fmt) w)
    = theQuery cfg
        :: trace (run handle (channelStep cfg items message)
                      (fst (handle (theQuery cfg) w)))
        ++ t3 ++ t4 /\
    Forall (isDmLoopCall message) t3 /\
    (t4 = [] \/ exists line, t4 = [ConsoleLog line]).
Proof.
  intros Hq items message. rewrite run_main. cbn zeta. rewrite Hq.
  fold items. fold message.
  destruct (result (run handle (channelStep cfg items message) _))
    as [e | posted].
  - exists [], []. cbn [trace]. rewrite !List.app_nil_r.
    split; [reflexivity |]. split; [constructor | left; reflexivity].
  - pose proof (dmStep_trace items message
                  (final (run handle (channelStep cfg items message)
                              (fst (handle (theQuery cfg) w))))) as H3.
    destruct (result (run handle (dmStep cfg items message) _)) as [e | sent].
    + eexists _, []. cbn [trace]. rewrite List.app_nil_r.
      split; [reflexivity |]. split; [exact H3 | left; reflexivity].
    + eexists _, _. cbn [trace].
      split; [reflexivity |]. split; [exact H3 | right; eauto].
Qed.





Lemma truthy_true (s : string) : JS.truthy s = true <-> s <> "".
Proof.
  unfold JS.truthy. rewrite negb_true_iff. apply String.eqb_neq.
Qed.

End RunMain.

(** ** Done filtering *)





(** ** Pacing of the DM loop *)




(** ** Delivery *)

Section Delivery.
Context {W : Type}.
Context (handle : forall c : Call, W -> W * (Error + Answer c)).
Context (cfg : Config) (fmt : string -> string).

Lemma filter_dmLoop_webhook (text : string) (t : list Call) :
  Forall (isDmLoopCall text) t -> List.filter isWebhookPost t = [].
Proof.
  induction 1 as [| c t Hc _ IH]; [reflexivity |].
  cbn. destruct c; cbn in Hc |- *; try contradiction; exact IH.
Qed.

(** The webhook posts of a run are those of its channel step: one post of
    the digest when the gate and the URL allow it, none otherwise. *)
Lemma main_webhook_posts (w : W) (response : QueryResponse) :
  snd (handle (theQuery cfg) w) = inr response ->
  let items := List.filter (notDone cfg) (default [] (results response)) in
  let message := formatDigest cfg fmt items in
  List.filter isWebhookPost (trace (run handle (main cfg fmt) w)) =
  if (nonEmpty items || POST_WHEN_EMPTY cfg)
       && JS.truthy (SLACK_WEBHOOK_URL cfg)
  then [Fetch (SLACK_WEBHOOK_URL cfg) message] else [].
Proof.
  intros Hq items message.
  destruct (main_trace handle cfg fmt w response Hq)
    as (t3 & t4 & -> & H3 & H4).
  fold items. fold message. rewrite channelStep_trace.
  change (theQuery cfg :: ?a ++ ?b) with ([theQuery cfg] ++ a ++ b).
  rewrite !List.filter_app, (filter_dmLoop_webhook message t3 H3).
  assert (List.filter isWebhookPost t4 = []) as ->.
  { destruct H4 as [-> | [line ->]]; reflexivity. }
  destruct (_ && _); reflexivity.
Qed.

Lemma main_result (w : W) (response : QueryResponse) (r : RunResult) :
  snd (handle (theQuery cfg) w) = inr response ->
  result (run handle (main cfg fmt) w) = inr r ->
  let items := List.filter (notDone cfg) (default [] (results response)) in
  dueCount r = length items /\
  channelPosted r = (nonEmpty items || POST_WHEN_EMPTY cfg)
                      && JS.truthy (SLACK_WEBHOOK_URL cfg).
Proof.
  intros Hq. rewrite run_main. cbn zeta. rewrite Hq.
  set (items := List.filter (notDone cfg) (default [] (results response))).
  set (message := formatDigest cfg fmt items).
  destruct (result (run handle (channelStep cfg items message) _))
    as [e | posted] eqn:Hch; [discriminate |].
  apply channelStep_posted in Hch.
  destruct (result (run handle (dmStep cfg items message) _)) as [e | sent];
    [discriminate |].
  cbn [result].
  destruct (snd (handle (ConsoleLog _) _)) as [e | []]; [discriminate |].
  intros [= <-]. split; [reflexivity | exact Hch].
Qed.


End Delivery.




(** C9. With no webhook URL [postToSlackWebhook] returns [false] without
    any call and without throwing; a run then makes no webhook post at all,
    and if it completes it reports the channel as not posted, whatever the
    gate says. *)
Theorem no_webhook_url_no_post {W : Type}
        (handle : forall c : Call, W -> W * (Error + Answer c))
        (cfg : Config) (fmt : string -> string) (w : W) :
  SLACK_WEBHOOK_URL cfg = "" ->
  (forall text w',
      run handle (postToSlackWebhook cfg text) w'
      = {| trace := []; final := w'; result := inr false |}) /\
  (forall c, In c (trace (run handle (main cfg fmt) w)) ->
             isWebhookPost c = false) /\
  (forall r, result (run handle (main cfg fmt) w) = inr r ->
             channelPosted r = false).
Proof.
  intros Hurl.
  assert (JS.truthy (SLACK_WEBHOOK_URL cfg) = false) as Ht
    by (rewrite Hurl; reflexivity).
  split; [| split].
  - intros text w'. rewrite run_postToSlackWebhook, Ht. reflexivity.
  - intros c Hin. destruct (isWebhookPost c) eqn:Hc; [| reflexivity].
    exfalso.
    assert (In c (List.filter isWebhookPost
                    (trace (run handle (main cfg fmt) w)))) as Hf
      by (apply List.filter_In; auto).
    destruct (snd (handle (theQuery cfg) w)) as [e | response] eqn:Hq.
    + rewrite run_main in Hf. cbn zeta in Hf. rewrite Hq in Hf.
      cbn in Hf. exact Hf.
    + rewrite (main_webhook_posts handle cfg fmt w response Hq), Ht,
        andb_false_r in Hf.
      exact Hf.
  - intros r Hr.
    destruct (snd (handle (theQuery cfg) w)) as [e | response] eqn:Hq.
    + rewrite run_main in Hr. cbn zeta in Hr. rewrite Hq in Hr. discriminate.
    + destruct (main_result handle cfg fmt w response r Hq Hr) as [_ ->].
      rewrite Ht. apply andb_false_r.
Qed.

Lemma no_webhook_url_no_post_witness :
  channelPosted {| dueCount := 1; channelPosted := false; dmsSent := 1 |}
  = false /\
  run (friendly [pageA])
      (postToSlackWebhook (sampleConfig "" "xoxb-1" true ["D1"]) "digest") tt
  = {| trace := []; final := tt; result := inr false |}.
Proof.
  pose proof (no_webhook_url_no_post (friendly [pageA])
                (sampleConfig "" "xoxb-1" true ["D1"]) formatDateOnly tt
                eq_refl) as (Hpost & _ & Hres).
  split.
  - apply (Hres {| dueCount := 1; channelPosted := false; dmsSent := 1 |}).
    vm_compute. reflexivity.
  - apply Hpost.
Defined.

(** C10. Every delivery of a run carries the same string: the digest
    formatted once from the fetched items. The webhook post and every
    [chat.postMessage] of the DM loop carry exactly that string; a run whose
    query failed delivers nothing. *)
Theorem same_digest_everywhere {W : Type}
        (handle : forall c : Call, W -> W * (Error + Answer c))
        (cfg : Config) (fmt : string -> string) (w : W) :
  let R := run handle (main cfg fmt) w in
  (forall response,
      snd (handle (theQuery cfg) w) = inr response ->
      let items := List.filter (notDone cfg) (default [] (results response)) in
      forall c text,
        In c (trace R) -> deliveredText c = Some text ->
        text = formatDigest cfg fmt items) /\
  (forall e,
      snd (handle (theQuery cfg) w) = inl e ->
      forall c, In c (trace R) -> deliveredText c = None).
Proof.
  intros R. subst R. split.
  - intros response Hq items c text Hin Hc.
    destruct (main_trace handle cfg fmt w response Hq)
      as (t3 & t4 & Ht & H3 & H4).
    fold items in Ht, H3. rewrite Ht, channelStep_trace in Hin.
    destruct Hin as [<- | Hin]; [discriminate Hc |].
    apply in_app_or in Hin. destruct Hin as [Hin | Hin].
    { destruct (_ && _); [| destruct Hin].
      destruct Hin as [<- | []]. cbn in Hc. congruence. }
    apply in_app_or in Hin. destruct Hin as [Hin | Hin].
    + rewrite List.Forall_forall in H3. specialize (H3 c Hin).
      destruct c; cbn in Hc, H3; try discriminate; try contradiction.
      congruence.
    + destruct H4 as [-> | [line ->]]; [destruct Hin |].
      destruct Hin as [<- | []]. discriminate Hc.
  - intros e Hq c Hin. rewrite run_main in Hin. cbn zeta in Hin.
    rewrite Hq in Hin. destruct Hin as [<- | []]. reflexivity.
Qed.

Lemma same_digest_everywhere_witness :
  let cfg := sampleConfig "https://hooks.example/T1" "xoxb-1" true ["D1"; "U2"] in
  List.map deliveredText
           (trace (run (friendly [pageA; pageB]) (main cfg formatDateOnly) tt))
  = [ None;
      Some (formatDigest cfg formatDateOnly [pageA]);
      Some (formatDigest cfg formatDateOnly [pageA]); None;
      None; Some (formatDigest cfg formatDateOnly [pageA]); None;
      None ] /\
  formatDigest cfg formatDateOnly [pageA]
  = formatDigest cfg formatDateOnly
                 (List.filter (notDone cfg) [pageA; pageB]).
Proof.
  cbn zeta. split; [vm_compute; reflexivity |].
  refine (proj1 (same_digest_everywhere (friendly [pageA; pageB])
            (sampleConfig "https://hooks.example/T1" "xoxb-1" true ["D1"; "U2"])
            formatDateOnly tt)
          {| results := Some [pageA; pageB] |} eq_refl
          (ChatPostMessage "D1" _) _ _ eq_refl).
  vm_compute. right. right. left. reflexivity.
Defined.

(** ** DM targets without a bot token *)




(** ** Strings: append, reverse and trimming of clean text *)

Module StringFacts.

Lemma append_cons (a : ascii) (s t : string) :
  String a s +:+ t = String a (s +:+ t).
Proof. reflexivity. Qed.

Lemma append_nil_r (s : string) : s +:+ "" = s.
Proof.
  induction s as [| a s IH]; [reflexivity |].
  rewrite append_cons, IH. reflexivity.
Qed.

Lemma append_assoc (a b c : string) : (a +:+ b) +:+ c = a +:+ (b +:+ c).
Proof.
  induction a as [| x a IH]; [reflexivity |].
  rewrite !append_cons, IH. reflexivity.
Qed.

Lemma rev_app_spec (s t : string) : String.rev_app s t = String.rev s +:+ t.
Proof.
  revert t. induction s as [| a s IH]; intros t; [reflexivity |].
  unfold String.rev. cbn [String.rev_app].
  rewrite (IH (String a t)), (IH (String a "")), append_assoc.
  reflexivity.
Qed.

Lemma rev_cons (a : ascii) (s : string) :
  String.rev (String a s) = String.rev s +:+ String a "".
Proof. unfold String.rev at 1. cbn [String.rev_app]. apply rev_app_spec. Qed.

Lemma rev_append (s t : string) :
  String.rev (s +:+ t) = String.rev t +:+ String.rev s.
Proof.
  induction s as [| a s IH].
  - cbn. rewrite append_nil_r. reflexivity.
  - rewrite append_cons, !rev_cons, IH, append_assoc. reflexivity.
Qed.

Lemma rev_involutive (s : string) : String.rev (String.rev s) = s.
Proof.
  induction s as [| a s IH]; [reflexivity |].
  rewrite rev_cons, rev_append, IH. reflexivity.
Qed.

Lemma allBytes_append (P : ascii -> bool) (s t : string) :
  allBytes P (s +:+ t) = allBytes P s && allBytes P t.
Proof.
  induction s as [| a s IH]; [reflexivity |].
  rewrite append_cons. cbn [allBytes]. rewrite IH, andb_assoc. reflexivity.
Qed.

Lemma allBytes_rev (P : ascii -> bool) (s : string) :
  allBytes P (String.rev s) = allBytes P s.
Proof.
  induction s as [| a s IH]; [reflexivity |].
  rewrite rev_cons, allBytes_append, IH. cbn [allBytes].
  rewrite andb_true_r, andb_comm. reflexivity.
Qed.

(** [strip] and the trims keep a property that holds of every byte. *)
Lemma allBytes_strip (P : ascii -> bool) (encs : list string) (s : string)
      (skip : nat) :
  allBytes P s = true -> allBytes P (JS.strip encs skip s) = true.
Proof.
  intros H. destruct (JSFacts.strip_suffix encs s skip) as [pre Hpre].
  rewrite Hpre, allBytes_append in H.
  apply andb_true_iff in H. apply H.
Qed.

Lemma allBytes_trim (P : ascii -> bool) (s : string) :
  allBytes P s = true -> allBytes P (JS.trim s) = true.
Proof.
  intros H. unfold JS.trim, JS.trimEnd, JS.trimStart.
  rewrite allBytes_rev. apply allBytes_strip.
  rewrite allBytes_rev. apply allBytes_strip. exact H.
Qed.

Lemma idByte_not_leading (c : ascii) (r : string) :
  isIdByte c = true ->
  JS.leading JS.wsEncodings (String c r) = None /\
  JS.leading (List.map String.rev JS.wsEncodings) (String c r) = None.
Proof.
  intros H.
  destruct c as [[] [] [] [] [] [] [] []]; try discriminate H;
    split; reflexivity.
Qed.

(** Trimming leaves a string that starts and ends with an identifier byte
    as it is. *)
Lemma trim_clean (t : string) : allBytes isIdByte t = true -> JS.trim t = t.
Proof.
  intros H. unfold JS.trim.
  assert (JS.trimStart t = t) as ->.
  { destruct t as [| c r]; [reflexivity |].
    cbn [allBytes] in H. apply andb_true_iff in H. destruct H as [Hc _].
    unfold JS.trimStart. cbn [JS.strip].
    rewrite (proj1 (idByte_not_leading c r Hc)). reflexivity. }
  unfold JS.trimEnd.
  rewrite <- (allBytes_rev isIdByte t) in H.
  destruct (String.rev t) as [| c r] eqn:E.
  - rewrite <- (rev_involutive t), E. reflexivity.
  - cbn [allBytes] in H. apply andb_true_iff in H. destruct H as [Hc _].
    cbn [JS.strip]. rewrite (proj2 (idByte_not_leading c r Hc)).
    rewrite <- E. apply rev_involutive.
Qed.

End StringFacts.

(** ** Parsing the DM target list *)

Section DmTargets.
Import StringFacts.

Lemma idByte_notSeparator (c : ascii) :
  isIdByte c = true -> Startup.isSeparator c = false.
Proof.
  intros H. destruct c as [[] [] [] [] [] [] [] []]; try discriminate H;
    reflexivity.
Qed.

(** Reading a token: its bytes join the piece being read. *)
Lemma splitGo_token (t : string) :
  forall (cur : string) (b : bool) (c : ascii) (rest : string),
    Startup.isSeparator c = false ->
    allBytes notSeparator t = true ->
    Startup.splitGo cur b (String c t +:+ rest)
    = Startup.splitGo (cur +:+ String c t) false rest.
Proof.
  induction t as [| d t IH]; intros cur b c rest Hc Ht.
  - rewrite append_cons. cbn [Startup.splitGo]. rewrite Hc. reflexivity.
  - cbn [allBytes] in Ht. apply andb_true_iff in Ht. destruct Ht as [Hd Ht].
    unfold notSeparator in Hd. apply negb_true_iff in Hd.
    rewrite append_cons. cbn [Startup.splitGo]. rewrite Hc.
    rewrite (IH _ false d rest Hd Ht), append_assoc. reflexivity.
Qed.

(** Reading a run of separators closes the piece being read, once. *)
Lemma splitGo_separators (sep : string) :
  forall (cur : string) (b : bool) (rest : string),
    sep <> "" -> separatorRun sep ->
    Startup.splitGo cur b (sep +:+ rest)
    = (if b then [] else [cur]) ++ Startup.splitGo "" true rest.
Proof.
  unfold separatorRun.
  induction sep as [| c sep IH]; intros cur b rest Hne Hsep; [congruence |].
  cbn [allBytes] in Hsep. apply andb_true_iff in Hsep.
  destruct Hsep as [Hc Hsep].
  rewrite append_cons. cbn [Startup.splitGo]. rewrite Hc.
  destruct sep as [| d sep'].
  - destruct b; reflexivity.
  - rewrite (IH "" true rest ltac:(discriminate) Hsep).
    destruct b; reflexivity.
Qed.

Lemma allBytes_impl (P Q : ascii -> bool) (s : string) :
  (forall c, P c = true -> Q c = true) ->
  allBytes P s = true -> allBytes Q s = true.
Proof.
  intros HPQ. induction s as [| c s IH]; [reflexivity |].
  cbn [allBytes]. rewrite !andb_true_iff. intros [Hc Hs]. auto.
Qed.

Lemma clean_token (t : string) :
  cleanTarget t ->
  exists c r, t = String c r /\ Startup.isSeparator c = false /\
              allBytes notSeparator r = true.
Proof.
  intros [Hne Hall]. destruct t as [| c r]; [congruence |].
  cbn [allBytes] in Hall. apply andb_true_iff in Hall.
  destruct Hall as [Hc Hr]. exists c, r.
  split; [reflexivity |]. split; [apply idByte_notSeparator, Hc |].
  apply (allBytes_impl isIdByte); [| exact Hr].
  intros d Hd. unfold notSeparator. rewrite (idByte_notSeparator d Hd).
  reflexivity.
Qed.

Lemma targets_of_pieces (b : bool) (tss : list (string * string)) :
  wellSeparated tss ->
  List.filter JS.truthy
    (List.map JS.trim (Startup.splitGo "" b (writeTargets tss)))
  = List.map fst tss.
Proof.
  revert b. induction tss as [| [t sep] rest IH]; intros b Hws.
  - reflexivity.
  - cbn [wellSeparated] in Hws. destruct Hws as (Hclean & Hsep & Hlast & Hrest).
    destruct (clean_token t Hclean) as (c & r & -> & Hc & Hr).
    cbn [writeTargets List.map fst].
    rewrite (splitGo_token r "" b c _ Hc Hr).
    change ("" +:+ String c r) with (String c r).
    assert (JS.trim (String c r) = String c r) as Htrim
      by (apply trim_clean, Hclean).
    destruct sep as [| s sep'].
    + destruct rest as [| x rest']; [| exfalso; apply Hlast; [discriminate | reflexivity]].
      change (Startup.splitGo (String c r) false ("" +:+ writeTargets []))
        with [String c r].
      cbn [List.map List.filter]. rewrite Htrim. reflexivity.
    + rewrite (splitGo_separators (String s sep') (String c r) false _
                 ltac:(discriminate) Hsep).
      cbn [app List.map List.filter]. rewrite Htrim.
      cbn [JS.truthy String.eqb negb]. f_equal. apply IH, Hrest.
Qed.

Lemma splitGo_pieces (s : string) :
  forall (cur : string) (b : bool),
    allBytes notSeparator cur = true ->
    Forall (fun piece => allBytes notSeparator piece = true)
           (Startup.splitGo cur b s).
Proof.
  induction s as [| c s IH]; intros cur b Hcur.
  - repeat constructor. exact Hcur.
  - cbn [Startup.splitGo]. destruct (Startup.isSeparator c) eqn:Hc.
    + destruct b; [apply IH; reflexivity |].
      constructor; [exact Hcur | apply IH; reflexivity].
    + apply IH. rewrite allBytes_append, Hcur. cbn [allBytes].
      unfold notSeparator. rewrite Hc. reflexivity.
Qed.

End DmTargets.

(** X1. Whatever the value of [SLACK_DM_USER_IDS], no parsed DM target is
    empty and none holds a comma, a blank, a tab or a line break; an unset
    or empty value, or one made of separators only, gives no target. *)
Theorem DM_TARGETS_entries (v : option string) :
  Forall (fun t => t <> "" /\ allBytes notSeparator t = true)
         (Startup.DM_TARGETS v) /\
  (forall s, v = Some s -> separatorRun s -> Startup.DM_TARGETS v = []) /\
  (v = None -> Startup.DM_TARGETS v = []).
Proof.
  split; [| split].
  - unfold Startup.DM_TARGETS, Startup.split.
    pose proof (splitGo_pieces (Env.orDefault v "") "" false eq_refl) as H.
    induction H as [| piece pieces Hp _ IH]; [constructor |].
    cbn [List.map List.filter].
    destruct (JS.truthy (JS.trim piece)) eqn:E; [| exact IH].
    constructor; [| exact IH]. split.
    + apply truthy_true, E.
    + apply StringFacts.allBytes_trim, Hp.
  - intros s -> Hs. unfold Startup.DM_TARGETS, Startup.split, Env.orDefault.
    destruct s as [| c r]; [reflexivity |].
    change (JS.orElse (String c r) "") with (String c r).
    pose proof (splitGo_separators (String c r) "" false ""
                  ltac:(discriminate) Hs) as H.
    rewrite StringFacts.append_nil_r in H. rewrite H. reflexivity.
  - intros ->. reflexivity.
Qed.

Lemma DM_TARGETS_entries_witness :
  Startup.DM_TARGETS (Some ", ,") = [].
Proof.
  apply (proj1 (proj2 (DM_TARGETS_entries (Some ", ,"))) ", ," eq_refl).
  reflexivity.
Defined.

(** X2. A value written as clean targets, each followed by a non-empty run
    of separators (the last run may be empty) and preceded by any run of
    separators, parses to exactly those targets, in order. *)
Theorem DM_TARGETS_parse (pre : string) (tss : list (string * string)) :
  separatorRun pre -> wellSeparated tss ->
  Startup.DM_TARGETS (Some (pre +:+ writeTargets tss)) = List.map fst tss.
Proof.
  intros Hpre Hws. unfold Startup.DM_TARGETS, Startup.split, Env.orDefault.
  assert (JS.orElse (pre +:+ writeTargets tss) "" = pre +:+ writeTargets tss)
    as ->.
  { unfold JS.orElse. destruct (JS.truthy _) eqn:E; [reflexivity |].
    unfold JS.truthy in E. apply negb_false_iff, String.eqb_eq in E.
    symmetry. exact E. }
  destruct pre as [| c r].
  - apply targets_of_pieces, Hws.
  - rewrite (splitGo_separators (String c r) "" false _
               ltac:(discriminate) Hpre).
    cbn [app List.map List.filter]. apply targets_of_pieces, Hws.
Qed.

Lemma DM_TARGETS_parse_witness :
  Startup.DM_TARGETS (Some (" " +:+ "U123, D456" +:+ JS.nl +:+ "U789"))
  = ["U123"; "D456"; "U789"].
Proof.
  apply (DM_TARGETS_parse " " [("U123", ", "); ("D456", JS.nl); ("U789", "")]).
  - reflexivity.
  - cbn. unfold cleanTarget, separatorRun.
    repeat split; try reflexivity; try discriminate;
      try (intros _; discriminate); congruence.
Defined.

(** ** The other settings read at start-up *)

Section Settings.
Import StringFacts.

Lemma digits_of_uint (d : Decimal.uint) :
  allBytes Startup.isDigit (NilEmpty.string_of_uint d) = true.
Proof. induction d; cbn; auto. Qed.

Lemma takeDigits_append (ds rest : string) :
  allBytes Startup.isDigit ds = true ->
  match rest with
  | String c _ => Startup.isDigit c = false
  | EmptyString => True
  end ->
  Startup.takeDigits (ds +:+ rest) = ds.
Proof.
  intros Hds Hrest. induction ds as [| c ds IH].
  - destruct rest as [| c r]; [reflexivity |].
    change ("" +:+ String c r) with (String c r).
    cbn [Startup.takeDigits]. rewrite Hrest. reflexivity.
  - cbn [allBytes] in Hds. apply andb_true_iff in Hds. destruct Hds as [Hc Hds].
    rewrite append_cons. cbn [Startup.takeDigits]. rewrite Hc, (IH Hds).
    reflexivity.
Qed.

(** Parsing text that starts with a digit: no white space, no sign. *)
Lemma parseInt10_digits (c : ascii) (r : string) :
  Startup.isDigit c = true ->
  Startup.parseInt10 (String c r) =
  let ds := Startup.takeDigits (String c r) in
  if (String.length ds <=? 15)%nat then
    match NilZero.uint_of_string ds with
    | Some d => Some (JS.Int (Z.of_N (N.of_uint d)))
    | None => None
    end
  else None.
Proof.
  intros Hc. unfold Startup.parseInt10, JS.trimStart. cbn [JS.strip].
  assert (isIdByte c = true) as Hid
    by (destruct c as [[] [] [] [] [] [] [] []]; try discriminate Hc;
        reflexivity).
  rewrite (proj1 (idByte_not_leading c r Hid)).
  assert (match String c r with
          | String "-" r0 => (true, r0)
          | String "+" r0 => (false, r0)
          | _ => (false, String c r)
          end = (false, String c r)) as ->
    by (destruct c as [[] [] [] [] [] [] [] []]; try discriminate Hc;
        reflexivity).
  cbn zeta. cbn [Startup.takeDigits]. rewrite Hc. reflexivity.
Qed.

Lemma parseInt10_minus (r : string) :
  Startup.parseInt10 (String "-" r) =
  let ds := Startup.takeDigits r in
  match ds with
  | EmptyString => Some JS.NaN
  | _ =>
      if (String.length ds <=? 15)%nat then
        match NilZero.uint_of_string ds with
        | Some d => Some (JS.Int (- Z.of_N (N.of_uint d)))
        | None => None
        end
      else None
  end.
Proof. destruct r; reflexivity. Qed.

Lemma uint_string (d : Decimal.uint) :
  d <> Decimal.Nil ->
  exists c r, NilZero.string_of_uint d = String c r /\
              Startup.isDigit c = true /\
              allBytes Startup.isDigit (String c r) = true /\
              NilZero.uint_of_string (String c r) = Some d.
Proof.
  intros Hd.
  assert (NilZero.string_of_uint d = NilEmpty.string_of_uint d) as E
    by (destruct d; [congruence | reflexivity ..]).
  pose proof (digits_of_uint d) as Hdig. pose proof (NilZero.usu d Hd) as Hu.
  rewrite E in *. destruct (NilEmpty.string_of_uint d) as [| c r] eqn:Es.
  - destruct d; cbn in Es; congruence.
  - exists c, r. cbn [allBytes] in Hdig.
    pose proof Hdig as Hall. apply andb_true_iff in Hdig.
    repeat split; tauto.
Qed.

Lemma parse_positive (d : Decimal.uint) (rest : string) :
  d <> Decimal.Nil ->
  (String.length (NilZero.string_of_uint d) <= 15)%nat ->
  match rest with
  | String c _ => Startup.isDigit c = false
  | EmptyString => True
  end ->
  Startup.parseInt10 (NilZero.string_of_uint d +:+ rest)
  = Some (JS.Int (Z.of_N (N.of_uint d))) /\
  Startup.parseInt10 (String "-" (NilZero.string_of_uint d +:+ rest))
  = Some (JS.Int (- Z.of_N (N.of_uint d))).
Proof.
  intros Hd Hlen Hrest.
  destruct (uint_string d Hd) as (c & r & E & Hc & Hall & Hu).
  rewrite E in *. split.
  - rewrite append_cons, (parseInt10_digits c _ Hc). cbn zeta.
    rewrite <- append_cons, (takeDigits_append _ rest Hall Hrest), Hu.
    apply Nat.leb_le in Hlen. rewrite Hlen. reflexivity.
  - rewrite parseInt10_minus. cbn zeta.
    rewrite (takeDigits_append _ rest Hall Hrest), Hu.
    apply Nat.leb_le in Hlen. rewrite Hlen. reflexivity.
Qed.

End Settings.

(** X3. Reading back a printed integer: for an integer of at most 15
    digits, [parseInt] of its decimal text gives the integer again, also
    when the text goes on with something that is not a digit. *)
Theorem parseInt10_toString (z : Z) (rest : string) :
  (String.length (JS.toString (JS.Int (Z.abs z))) <= 15)%nat ->
  match rest with
  | String c _ => Startup.isDigit c = false
  | EmptyString => True
  end ->
  Startup.parseInt10 (JS.toString (JS.Int z) +:+ rest) = Some (JS.Int z).
Proof.
  intros Hlen Hrest. destruct z as [| p | p].
  - destruct (parse_positive (Decimal.D0 Decimal.Nil) rest) as [H _];
      [discriminate | exact Hlen | exact Hrest |].
    exact H.
  - cbn [Z.abs JS.toString Z.to_int NilZero.string_of_int] in Hlen |- *.
    destruct (parse_positive (Pos.to_uint p) rest) as [H _];
      [apply DecimalPos.Unsigned.to_uint_nonnil | exact Hlen | exact Hrest |].
    rewrite H. unfold N.of_uint. rewrite DecimalPos.Unsigned.of_to.
    reflexivity.
  - cbn [Z.abs JS.toString Z.to_int NilZero.string_of_int] in Hlen |- *.
    destruct (parse_positive (Pos.to_uint p) rest) as [_ H];
      [apply DecimalPos.Unsigned.to_uint_nonnil | exact Hlen | exact Hrest |].
    rewrite StringFacts.append_cons, H. unfold N.of_uint.
    rewrite DecimalPos.Unsigned.of_to. reflexivity.
Qed.

Lemma parseInt10_toString_witness :
  Startup.parseInt10 ("14" +:+ " days") = Some (JS.Int 14).
Proof.
  apply (parseInt10_toString 14 " days"); [vm_compute; lia | reflexivity].
Defined.

(** X4. [LOOKAHEAD_DAYS] is 7 when the variable is unset or empty. A value
    that starts with a letter or another byte that is neither a digit, a
    sign nor white space is not replaced by the default: it parses to NaN. *)
Theorem LOOKAHEAD_DAYS_default_and_NaN :
  Startup.LOOKAHEAD_DAYS None = Some (JS.Int 7) /\
  Startup.LOOKAHEAD_DAYS (Some "") = Some (JS.Int 7) /\
  (forall (c : ascii) (r : string),
      isIdByte c = true -> Startup.isDigit c = false ->
      c <> "+"%char -> c <> "-"%char ->
      Startup.LOOKAHEAD_DAYS (Some (String c r)) = Some JS.NaN).
Proof.
  split; [reflexivity |]. split; [reflexivity |].
  intros c r Hid Hdig Hplus Hminus.
  unfold Startup.LOOKAHEAD_DAYS, Env.orDefault.
  change (JS.orElse (String c r) "7") with (String c r).
  unfold Startup.parseInt10, JS.trimStart. cbn [JS.strip].
  rewrite (proj1 (StringFacts.idByte_not_leading c r Hid)).
  assert (match String c r with
          | String "-" r0 => (true, r0)
          | String "+" r0 => (false, r0)
          | _ => (false, String c r)
          end = (false, String c r)) as ->
    by (destruct c as [[] [] [] [] [] [] [] []]; try discriminate Hid;
        try reflexivity; congruence).
  cbn zeta. cbn [Startup.takeDigits]. rewrite Hdig. reflexivity.
Qed.

Lemma LOOKAHEAD_DAYS_default_and_NaN_witness :
  Startup.LOOKAHEAD_DAYS (Some "seven") = Some JS.NaN.
Proof.
  apply (proj2 (proj2 LOOKAHEAD_DAYS_default_and_NaN));
    [reflexivity | reflexivity | discriminate | discriminate].
Defined.

Lemma lowerAscii_letters (a : ascii) :
  (JS.lowerAscii a = "t" <-> a = "t" \/ a = "T")%char /\
  (JS.lowerAscii a = "r" <-> a = "r" \/ a = "R")%char /\
  (JS.lowerAscii a = "u" <-> a = "u" \/ a = "U")%char /\
  (JS.lowerAscii a = "e" <-> a = "e" \/ a = "E")%char.
Proof.
  destruct a as [[] [] [] [] [] [] [] []]; cbn;
    repeat split; intros H; try discriminate H; auto;
    destruct H as [H | H]; discriminate H.
Qed.

(** X5. [POST_WHEN_EMPTY] is true exactly when the variable is unset, is
    empty, or spells "true" in any mix of upper and lower case; every other
    value, "1" and "yes" included, turns posting of the empty digest off. *)
Theorem POST_WHEN_EMPTY_values (v : option string) :
  Env.POST_WHEN_EMPTY v = true <->
  v = None \/ v = Some "" \/
  exists t r u e : ascii,
    v = Some (String t (String r (String u (String e "")))) /\
    (t = "t" \/ t = "T")%char /\ (r = "r" \/ r = "R")%char /\
    (u = "u" \/ u = "U")%char /\ (e = "e" \/ e = "E")%char.
Proof.
  unfold Env.POST_WHEN_EMPTY, Env.orDefault.
  destruct v as [s |]; [| split; [auto | reflexivity]].
  destruct s as [| t s]; [split; [auto | reflexivity] |].
  change (JS.orElse (String t s) "true") with (String t s).
  rewrite String.eqb_eq. split.
  - intros H. right. right.
    destruct s as [| r [| u [| e [| x s]]]]; try discriminate H.
    cbn [JS.toLowerCase] in H. injection H as Ht Hr Hu He.
    apply (proj1 (lowerAscii_letters t)) in Ht.
    apply (proj1 (proj2 (lowerAscii_letters r))) in Hr.
    apply (proj1 (proj2 (proj2 (lowerAscii_letters u)))) in Hu.
    apply (proj2 (proj2 (proj2 (lowerAscii_letters e)))) in He.
    exists t, r, u, e. auto.
  - intros [H | [H | (t' & r & u & e & H & Ht & Hr & Hu & He)]];
      try discriminate H.
    injection H as -> ->.
    destruct Ht as [-> | ->], Hr as [-> | ->], Hu as [-> | ->],
             He as [-> | ->]; reflexivity.
Qed.

(** X6. The start-up check passes exactly when NOTION_TOKEN and
    NOTION_DATABASE_ID are both set to a non-empty value. Otherwise start-up
    throws, and the message names NOTION_TOKEN whenever that one is missing
    or empty, and NOTION_DATABASE_ID only when the token is present. *)
Theorem checkRequired_passes (env : gmap string string) :
  let present k := exists x, env !! k = Some x /\ x <> "" in
  (Startup.checkRequired env Startup.REQUIRED_ENVS = None <->
   present "NOTION_TOKEN" /\ present "NOTION_DATABASE_ID") /\
  (~ present "NOTION_TOKEN" ->
   Startup.checkRequired env Startup.REQUIRED_ENVS
   = Some "Missing required env var: NOTION_TOKEN") /\
  (present "NOTION_TOKEN" -> ~ present "NOTION_DATABASE_ID" ->
   Startup.checkRequired env Startup.REQUIRED_ENVS
   = Some "Missing required env var: NOTION_DATABASE_ID").
Proof.
  intros present.
  assert (forall k, JS.truthy (default "" (env !! k)) = true <-> present k)
    as Hp.
  { intros k. unfold present. destruct (env !! k) as [x |]; cbn [default].
    - rewrite truthy_true. split; [eauto | intros (y & [= <-] & H); exact H].
    - split; [discriminate | intros (y & H & _); discriminate H]. }
  unfold Startup.REQUIRED_ENVS. cbn [Startup.checkRequired].
  pose proof (Hp "NOTION_TOKEN") as H1.
  pose proof (Hp "NOTION_DATABASE_ID") as H2.
  destruct (JS.truthy (default "" (env !! "NOTION_TOKEN")));
    destruct (JS.truthy (default "" (env !! "NOTION_DATABASE_ID")));
    cbn [negb]; repeat split; intros; try discriminate; try reflexivity;
      intuition discriminate.
Qed.

Lemma checkRequired_passes_witness :
  Startup.checkRequired {[ "NOTION_TOKEN" := "secret" ]} Startup.REQUIRED_ENVS
  = Some "Missing required env var: NOTION_DATABASE_ID".
Proof.
  apply (proj2 (proj2 (checkRequired_passes {[ "NOTION_TOKEN" := "secret" ]}))).
  - exists "secret". split; [reflexivity | discriminate].
  - intros (x & H & _). vm_compute in H. discriminate H.
Defined.

Lemma POST_WHEN_EMPTY_values_witness :
  Env.POST_WHEN_EMPTY (Some "TrUe") = true /\
  Env.POST_WHEN_EMPTY (Some "yes") = false.
Proof.
  split.
  - apply (proj2 (POST_WHEN_EMPTY_values (Some "TrUe"))).
    right. right. exists "T"%char, "r"%char, "U"%char, "e"%char. auto 10.
  - destruct (Env.POST_WHEN_EMPTY (Some "yes")) eqn:E; [| reflexivity].
    apply (proj1 (POST_WHEN_EMPTY_values (Some "yes"))) in E.
    destruct E as [E | [E | (t & r & u & e & E & _)]]; discriminate E.
Defined.

(** ** Field extraction *)

(** X7. A due date, when [getDate] returns one, is never the empty string
    and is the start of a date-typed property under that name; a property of
    any other type yields no date, whatever else it carries. *)
Theorem getDate_some (page : Page) (propName : string) :
  (forall d, getDate page propName = Some d ->
             d <> "" /\
             exists prop, prop_of page propName = Some prop /\
                          type prop = "date" /\
                          date prop = Some {| start := d |}) /\
  (forall prop, prop_of page propName = Some prop ->
                type prop <> "date" -> getDate page propName = None).
Proof.
  unfold getDate. split.
  - intros d. destruct (prop_of page propName) as [prop |]; [| discriminate].
    destruct (String.eqb_spec (type prop) "date") as [Hty | _];
      [| discriminate].
    destruct (date prop) as [[s] |] eqn:Hd; [| discriminate].
    cbn [start]. destruct (JS.truthy s) eqn:Hs; [| discriminate].
    intros [= <-]. split; [apply truthy_true, Hs |].
    exists prop. auto.
  - intros prop -> Hty. apply String.eqb_neq in Hty. rewrite Hty.
    reflexivity.
Qed.

Lemma getDate_some_witness :
  "2024-01-02" <> "" /\ getDate pageLower "Status" = None.
Proof.
  split.
  - apply (proj1 (getDate_some pageA "Next due") "2024-01-02"). reflexivity.
  - apply (proj2 (getDate_some pageLower "Status")
                 {| type := "status"; title := None; date := None;
                    select := None; status := Some {| name := "done" |} |});
      [reflexivity | discriminate].
Defined.

(** X8. The status extractor extends the select extractor: wherever
    [getSelectName] finds a label, [getStatusName] returns the same label;
    on a status-typed property [getSelectName] finds nothing while
    [getStatusName] returns the status name. For a property of any other
    type both return the empty string. *)
Theorem getStatusName_extends_select (page : Page) (propName : string) :
  (getSelectName page propName <> "" ->
   getStatusName page propName = getSelectName page propName) /\
  (forall prop, prop_of page propName = Some prop -> type prop = "status" ->
     getSelectName page propName = "" /\
     getStatusName page propName
     = match status prop with Some o => name o | None => "" end) /\
  (forall prop, prop_of page propName = Some prop ->
     type prop <> "select" -> type prop <> "status" ->
     getSelectName page propName = "" /\ getStatusName page propName = "").
Proof.
  unfold getSelectName, getStatusName. split; [| split].
  - destruct (prop_of page propName) as [prop |]; [| congruence].
    destruct (String.eqb (type prop) "select"); congruence.
  - intros prop -> Hty. rewrite Hty. cbn.
    split; [reflexivity |]. destruct (status prop) as [o |]; [| reflexivity].
    unfold JS.orElse, JS.truthy.
    destruct (String.eqb_spec (name o) ""); cbn; congruence.
  - intros prop -> Hsel Hst.
    apply String.eqb_neq in Hsel. apply String.eqb_neq in Hst.
    rewrite Hsel, Hst. split; reflexivity.
Qed.

Lemma getStatusName_extends_select_witness :
  getSelectName pageA "Status" = "" /\ getStatusName pageA "Status" = "Open".
Proof.
  apply (proj1 (proj2 (getStatusName_extends_select pageA "Status"))
               {| type := "status"; title := None; date := None;
                  select := None; status := Some {| name := "Open" |} |});
    reflexivity.
Defined.

(** ** The groups as a partition of the items *)

Section Partition.
Context (fmt : string -> string).

Lemma filter_split_perm {A : Type} (f : A -> bool) (l : list A) :
  Permutation (List.filter f l ++ List.filter (fun x => negb (f x)) l) l.
Proof.
  induction l as [| x l IH]; [constructor |].
  cbn. destruct (f x); cbn.
  - constructor. exact IH.
  - apply Permutation_sym, Permutation_cons_app, Permutation_sym, IH.
Qed.

Lemma filter_filter_other (items : list Page) (k k' : string) :
  k' <> k ->
  List.filter (fun p => String.eqb (dueKey fmt p) k')
              (List.filter (fun p => negb (String.eqb (dueKey fmt p) k)) items)
  = List.filter (fun p => String.eqb (dueKey fmt p) k') items.
Proof.
  intros Hne. induction items as [| p items IH]; [reflexivity |].
  cbn. destruct (String.eqb_spec (dueKey fmt p) k) as [E | _]; cbn.
  - rewrite IH. destruct (String.eqb_spec (dueKey fmt p) k'); [congruence |].
    reflexivity.
  - rewrite IH. reflexivity.
Qed.

(** Over distinct keys that cover the items' keys, the groups taken together
    are the items rearranged. *)
Lemma groups_perm (ks : list string) :
  forall items : list Page,
    List.NoDup ks ->
    (forall p, In p items -> In (dueKey fmt p) ks) ->
    Permutation
      (concat (List.map
                 (fun k => List.filter
                             (fun p => String.eqb (dueKey fmt p) k) items)
                 ks))
      items.
Proof.
  induction ks as [| k ks IH]; intros items Hnd Hcover.
  - destruct items as [| p items]; [constructor |].
    destruct (Hcover p (or_introl eq_refl)).
  - inversion Hnd as [| k0 ks0 Hk Hnd']; subst.
    cbn [List.map concat].
    set (others := List.filter (fun p => negb (String.eqb (dueKey fmt p) k))
                               items).
    assert (List.map
              (fun k' => List.filter
                           (fun p => String.eqb (dueKey fmt p) k') items) ks
            = List.map
                (fun k' => List.filter
                             (fun p => String.eqb (dueKey fmt p) k') others)
                ks) as ->.
    { apply List.map_ext_in. intros k' Hk'.
      symmetry. apply filter_filter_other. congruence. }
    eapply Permutation_trans; [| apply (filter_split_perm
                                          (fun p => String.eqb (dueKey fmt p) k))].
    apply Permutation_app_head. apply IH; [exact Hnd' |].
    intros p Hp. apply List.filter_In in Hp. destruct Hp as [Hin Hne].
    destruct (Hcover p Hin) as [E | Hks]; [| exact Hks].
    rewrite E, String.eqb_refl in Hne. discriminate Hne.
Qed.

Lemma groups_concat_perm (items : list Page) :
  Permutation (concat (List.map snd (groupByDueDate fmt items))) items.
Proof.
  rewrite groupByDueDate_spec, List.map_map. unfold groupOf. cbn [snd].
  apply groups_perm.
  - apply firstOccurrences_NoDup.
  - intros p Hp. apply (proj2 (firstOccurrences_In fmt _ _)).
    apply List.in_map. exact Hp.
Qed.

Lemma groups_cover (items : list Page) (p : Page) :
  In p items ->
  exists ps, In (dueKey fmt p, ps) (groupByDueDate fmt items) /\ In p ps.
Proof.
  intros Hp. rewrite groupByDueDate_spec. eexists. split.
  - apply List.in_map_iff. exists (dueKey fmt p). split; [reflexivity |].
    apply (proj2 (firstOccurrences_In fmt _ _)). apply List.in_map. exact Hp.
  - cbn. apply List.filter_In. split; [exact Hp | apply String.eqb_refl].
Qed.

End Partition.

(** X9. The groups partition the items: their keys are pairwise distinct,
    no group is empty, every item lies in the group of its own key, and the
    groups laid end to end are a rearrangement of the items, so the groups
    hold as many members as there are items. *)
Theorem groupByDueDate_partition (fmt : string -> string)
        (items : list Page) :
  let groups := groupByDueDate fmt items in
  List.NoDup (List.map fst groups) /\
  Forall (fun g => snd g <> []) groups /\
  (forall p, In p items ->
             exists ps, In (dueKey fmt p, ps) groups /\ In p ps) /\
  Permutation (concat (List.map snd groups)) items /\
  length (concat (List.map snd groups)) = length items.
Proof.
  cbn zeta. split; [| split; [| split; [| split]]].
  - rewrite groupByDueDate_spec, List.map_map. cbn [groupOf fst].
    rewrite List.map_id. apply firstOccurrences_NoDup.
  - rewrite groupByDueDate_spec. apply List.Forall_forall. intros g Hg.
    apply List.in_map_iff in Hg. destruct Hg as (k & <- & Hk).
    apply (proj1 (firstOccurrences_In fmt _ _)) in Hk.
    apply List.in_map_iff in Hk. destruct Hk as (p & Hkey & Hp).
    unfold groupOf. cbn [snd]. intros Hnil.
    assert (In p (List.filter (fun q => String.eqb (dueKey fmt q) k) items))
      as Hin by (apply List.filter_In; split;
                 [exact Hp | apply String.eqb_eq, Hkey]).
    rewrite Hnil in Hin. destruct Hin.
  - apply groups_cover.
  - apply groups_concat_perm.
  - apply Permutation_length, groups_concat_perm.
Qed.

Lemma groupByDueDate_partition_witness :
  exists ps,
    In ("2024-01-02", ps) (groupByDueDate formatDateOnly [pageA; pageB; pageC])
    /\ In pageC ps.
Proof.
  apply (proj1 (proj2 (proj2 (groupByDueDate_partition formatDateOnly
                                [pageA; pageB; pageC]))) pageC).
  right. right. left. reflexivity.
Defined.

(** ** The lines of the digest *)

Lemma flat_map_lines_length {A B : Type} (h : string -> B) (f : A -> B)
      (groups : list (string * list A)) :
  length (flat_map (fun '(k, ps) => h k :: List.map f ps) groups)
  = (length groups + length (concat (List.map snd groups)))%nat.
Proof.
  induction groups as [| [k ps] groups IH]; [reflexivity |].
  cbn [flat_map List.map concat snd length app].
  rewrite !length_app, length_map, IH. lia.
Qed.

(** X10. For a non-empty list of items the digest is the header line
    followed by the lines of the groups: one heading per distinct due-date
    key and one line per item, so no fetched item is left out and none is
    listed twice over. *)
Theorem formatDigest_lines (cfg : Config) (fmt : string -> string)
        (items : list Page) :
  items <> [] ->
  exists lines,
    formatDigest cfg fmt items
    = header cfg +:+ JS.nl +:+ JS.join JS.nl lines /\
    length lines
    = (length (firstOccurrences (List.map (dueKey fmt) items))
       + length items)%nat /\
    (forall p, In p items ->
               In (itemLine p) lines /\
               In (JS.nl +:+ "*" +:+ dueKey fmt p +:+ "*") lines).
Proof.
  intros Hne.
  exists (flat_map
            (fun '(dueDate, pages) =>
               (JS.nl +:+ "*" +:+ dueDate +:+ "*") :: List.map itemLine pages)
            (groupByDueDate fmt items)).
  split; [| split].
  - destruct items; [congruence | reflexivity].
  - rewrite (flat_map_lines_length
               (fun k => JS.nl +:+ "*" +:+ k +:+ "*") itemLine).
    rewrite (Permutation_length (groups_concat_perm fmt items)).
    rewrite groupByDueDate_spec, length_map. reflexivity.
  - intros p Hp. destruct (groups_cover fmt items p Hp) as (ps & Hg & Hin).
    split; apply List.in_flat_map; exists (dueKey fmt p, ps);
      (split; [exact Hg |]).
    + right. apply List.in_map. exact Hin.
    + left. reflexivity.
Qed.

Lemma formatDigest_lines_witness :
  exists lines,
    formatDigest (sampleConfig "" "" true []) formatDateOnly
                 [pageA; pageB; pageC]
    = header (sampleConfig "" "" true []) +:+ JS.nl +:+ JS.join JS.nl lines /\
    length lines = 5%nat.
Proof.
  destruct (formatDigest_lines (sampleConfig "" "" true []) formatDateOnly
              [pageA; pageB; pageC]) as (lines & Hfmt & Hlen & _);
    [discriminate |].
  exists lines. split; [exact Hfmt | exact Hlen].
Defined.

(** ** Sending: the webhook, the conversation open and the DM loop *)

(** X11. With a webhook URL configured [postToSlackWebhook] always makes
    exactly one POST carrying the text. It returns [true] exactly when the
    answer is a response with [ok] set, never returns [false], and turns a
    response that is not ok into the webhook error holding its status and
    body. *)
Theorem postToSlackWebhook_result {W : Type}
        (handle : forall c : Call, W -> W * (Error + Answer c))
        (cfg : Config) (text : string) (w : W) :
  SLACK_WEBHOOK_URL cfg <> "" ->
  let c := Fetch (SLACK_WEBHOOK_URL cfg) text in
  let r := run handle (postToSlackWebhook cfg text) w in
  trace r = [c] /\
  (result r = inr true <->
   exists res, snd (handle c w) = inr res /\ res_ok res = true) /\
  result r <> inr false /\
  (forall res, snd (handle c w) = inr res -> res_ok res = false ->
     result r = inl (WebhookFailed (res_status res) (res_text res)) /\
     message_of (WebhookFailed (res_status res) (res_text res))
     = "Slack webhook failed: " +:+ JS.toString (JS.Int (res_status res))
         +:+ " " +:+ res_text res).
Proof.
  intros Hurl c r. subst r. rewrite run_postToSlackWebhook.
  apply truthy_true in Hurl. rewrite Hurl. cbn zeta. fold c.
  cbn [trace result]. split; [reflexivity |].
  destruct (snd (handle c w)) as [e | res].
  - split; [| split]; [| discriminate | discriminate].
    split; [discriminate | intros (res & H & _); discriminate H].
  - destruct (res_ok res) eqn:Hok.
    + split; [| split]; [| discriminate | intros res' [= <-]; congruence].
      split; [eauto | reflexivity].
    + split; [| split]; [| discriminate |].
      * split; [discriminate | intros (res' & [= <-] & H); congruence].
      * intros res' [= <-] _. split; reflexivity.
Qed.

Lemma postToSlackWebhook_result_witness :
  result (run (friendly []) (postToSlackWebhook
                               (sampleConfig "https://hooks.example/T1" "" true [])
                               "digest") tt)
  = inr true.
Proof.
  apply (proj1 (proj2 (postToSlackWebhook_result (friendly [])
                         (sampleConfig "https://hooks.example/T1" "" true [])
                         "digest" tt ltac:(discriminate)))).
  eexists. split; reflexivity.
Defined.

(** X12. [openBotDmWithUser] only succeeds with a non-empty conversation
    id, the one the API returned for that user, after exactly one open call
    and with a bot token configured; without a token it throws before any
    call is made. *)
Theorem openBotDmWithUser_result {W : Type}
        (handle : forall c : Call, W -> W * (Error + Answer c))
        (cfg : Config) (userId : string) (w : W) :
  let r := run handle (openBotDmWithUser cfg userId) w in
  (forall id, result r = inr id ->
     id <> "" /\ SLACK_BOT_TOKEN cfg <> "" /\
     snd (handle (ConversationsOpen userId) w) = inr (Some id) /\
     trace r = [ConversationsOpen userId]) /\
  (SLACK_BOT_TOKEN cfg = "" ->
   r = {| trace := []; final := w; result := inl MissingBotToken |}) /\
  (SLACK_BOT_TOKEN cfg <> "" ->
   snd (handle (ConversationsOpen userId) w) = inr None ->
   result r = inl (CouldNotOpenDm userId)).
Proof.
  intros r. subst r.
  destruct (String.eqb_spec (SLACK_BOT_TOKEN cfg) "") as [E | Htok].
  - assert (run handle (openBotDmWithUser cfg userId) w
            = {| trace := []; final := w; result := inl MissingBotToken |})
      as -> by (unfold openBotDmWithUser; rewrite (slack_None cfg E);
                reflexivity).
    split; [intros id H; discriminate H |]. split; [reflexivity | congruence].
  - rewrite (run_openBotDmWithUser handle cfg userId w Htok).
    cbn zeta. cbn [result trace]. split; [| split; [congruence |]].
    + intros id.
      destruct (snd (handle (ConversationsOpen userId) w)) as [e | [id' |]];
        try discriminate.
      destruct (JS.truthy id') eqn:Hid; [| discriminate].
      intros [= <-]. repeat split; auto. apply truthy_true, Hid.
    + intros _ ->. reflexivity.
Qed.

Lemma openBotDmWithUser_result_witness :
  "DU456" <> "" /\
  result (run (friendly []) (openBotDmWithUser (sampleConfig "" "" true [])
                                               "U456") tt)
  = inl MissingBotToken.
Proof.
  pose proof (openBotDmWithUser_result (friendly [])
                (sampleConfig "" "xoxb-1" true []) "U456" tt) as (H & _ & _).
  pose proof (openBotDmWithUser_result (friendly [])
                (sampleConfig "" "" true []) "U456" tt) as (_ & H' & _).
  split.
  - apply (H "DU456"). reflexivity.
  - cbn zeta in H'. rewrite (H' eq_refl). reflexivity.
Defined.

Section DmLoop.
Context {W : Type}.
Context (handle : forall c : Call, W -> W * (Error + Answer c)).
Context (cfg : Config).

Lemma run_eta {A : Type} (r : Run W A) :
  {| trace := trace r; final := final r; result := result r |} = r.
Proof. destruct r; reflexivity. Qed.

Lemma run_forEachTarget_app (ts1 ts2 : list string) (message : string) :
  forall (n : nat) (w : W),
    run handle (forEachTarget cfg (ts1 ++ ts2) message n) w =
    let r1 := run handle (forEachTarget cfg ts1 message n) w in
    match result r1 with
    | inl e => {| trace := trace r1; final := final r1; result := inl e |}
    | inr n1 =>
        let r2 := run handle (forEachTarget cfg ts2 message n1) (final r1) in
        {| trace := trace r1 ++ trace r2; final := final r2;
           result := result r2 |}
    end.
Proof.
  induction ts1 as [| t ts1 IH]; intros n w.
  - cbn. apply eq_sym, run_eta.
  - change ((t :: ts1) ++ ts2) with (t :: (ts1 ++ ts2)).
    rewrite !run_forEachTarget_cons. cbn zeta.
    destruct (result (run handle (dmTarget cfg t message) w));
      [reflexivity |].
    destruct (snd (handle (SetTimeout 1100) _)); [reflexivity |].
    rewrite IH. cbn zeta. cbn [result trace final].
    destruct (result (run handle (forEachTarget cfg ts1 message (S n)) _));
      [reflexivity |].
    rewrite <- List.app_assoc. reflexivity.
Qed.

Lemma dmTarget_calls (target text : string) (w : W) :
  result (run handle (dmTarget cfg target text) w) = inr tt ->
  List.filter isPost (trace (run handle (dmTarget cfg target text) w))
  = [ChatPostMessage
       (if JS.startsWith target "D" then target
        else match snd (handle (ConversationsOpen target) w) with
             | inr (Some id) => id
             | _ => ""
             end) text] /\
  List.filter isOpen (trace (run handle (dmTarget cfg target text) w))
  = if JS.startsWith target "D" then [] else [ConversationsOpen target].
Proof.
  destruct (String.eqb_spec (SLACK_BOT_TOKEN cfg) "") as [E | Htok].
  - rewrite (run_dmTarget_no_client handle cfg _ _ _ E). discriminate.
  - rewrite (run_dmTarget handle cfg _ _ _ Htok).
    destruct (JS.startsWith target "D"); [split; reflexivity |].
    destruct (JS.startsWith target "U"); [| discriminate].
    cbn zeta.
    destruct (snd (handle (ConversationsOpen target) w)) as [e | [id |]];
      try discriminate.
    destruct (JS.truthy id); [split; reflexivity | discriminate].
Qed.

End DmLoop.

(** X13. A target that fails aborts the DM loop: the targets before it have
    been sent to, that target's own calls are the last ones made, and no
    call is made for any target after it. In particular a target starting
    with neither "U" nor "D" stops the loop with the invalid-target error
    before any call for it. *)
Theorem dm_loop_aborts_at_failure {W : Type}
        (handle : forall c : Call, W -> W * (Error + Answer c))
        (cfg : Config) (ts1 : list string) (bad : string) (ts2 : list string)
        (message : string) (n n1 : nat) (w : W) :
  let r1 := run handle (forEachTarget cfg ts1 message n) w in
  let rb := run handle (dmTarget cfg bad message) (final r1) in
  result r1 = inr n1 ->
  (forall e, result rb = inl e ->
     run handle (forEachTarget cfg (ts1 ++ bad :: ts2) message n) w
     = {| trace := trace r1 ++ trace rb; final := final rb;
          result := inl e |}) /\
  (SLACK_BOT_TOKEN cfg <> "" ->
   JS.startsWith bad "D" = false -> JS.startsWith bad "U" = false ->
   run handle (forEachTarget cfg (ts1 ++ bad :: ts2) message n) w
   = {| trace := trace r1; final := final r1;
        result := inl (InvalidDmTarget bad) |}).
Proof.
  intros r1 rb Hr1.
  assert (forall e, result rb = inl e ->
            run handle (forEachTarget cfg (ts1 ++ bad :: ts2) message n) w
            = {| trace := trace r1 ++ trace rb; final := final rb;
                 result := inl e |}) as Habort.
  { intros e He. rewrite run_forEachTarget_app. cbn zeta. fold r1.
    rewrite Hr1, run_forEachTarget_cons. cbn zeta. fold rb. rewrite He.
    reflexivity. }
  split; [exact Habort |].
  intros Htok HD HU.
  assert (rb = {| trace := []; final := final r1;
                  result := inl (InvalidDmTarget bad) |}) as Hb.
  { subst rb. rewrite (run_dmTarget handle cfg _ _ _ Htok), HD, HU.
    reflexivity. }
  rewrite (Habort (InvalidDmTarget bad)); [| rewrite Hb; reflexivity].
  rewrite Hb. cbn [trace final]. rewrite List.app_nil_r. reflexivity.
Qed.

Lemma dm_loop_aborts_at_failure_witness :
  run (friendly [])
      (forEachTarget (sampleConfig "" "xoxb-1" true []) (["D1"] ++ "C9" :: ["U2"])
                     "digest" 0) tt
  = {| trace := [ChatPostMessage "D1" "digest"; SetTimeout 1100];
       final := tt; result := inl (InvalidDmTarget "C9") |}.
Proof.
  apply (proj2 (dm_loop_aborts_at_failure (friendly [])
                  (sampleConfig "" "xoxb-1" true []) ["D1"] "C9" ["U2"]
                  "digest" 0 1 tt eq_refl));
    [discriminate | reflexivity | reflexivity].
Defined.

(** X14. A DM loop that completes has posted exactly one message per
    target and opened exactly one conversation per target that does not
    start with "D"; the returned count is the number of targets added to the
    count it started from. *)
Theorem dm_loop_call_counts {W : Type}
        (handle : forall c : Call, W -> W * (Error + Answer c))
        (cfg : Config) (targets : list string) (message : string)
        (n n' : nat) (w : W) :
  let r := run handle (forEachTarget cfg targets message n) w in
  result r = inr n' ->
  n' = (n + length targets)%nat /\
  length (List.filter isPost (trace r)) = length targets /\
  length (List.filter isOpen (trace r))
  = length (List.filter (fun t => negb (JS.startsWith t "D")) targets).
Proof.
  cbn zeta. revert n n' w.
  induction targets as [| t targets IH]; intros n n' w.
  - cbn. intros [= <-]. repeat split; lia.
  - rewrite run_forEachTarget_cons. cbn zeta.
    pose proof (dmTarget_calls handle cfg t message w) as Hcalls.
    destruct (result (run handle (dmTarget cfg t message) w)) as [e | []];
      [discriminate |].
    destruct (Hcalls eq_refl) as [Hposts Hopens].
    destruct (snd (handle (SetTimeout 1100) _)); [discriminate |].
    cbn [result trace]. intros Hres.
    destruct (IH _ _ _ Hres) as (Hn & Hp & Ho).
    rewrite !List.filter_app, !length_app, Hposts, Hopens.
    cbn [List.filter isPost isOpen length].
    rewrite Hp, Ho. split; [lia |]. split; [reflexivity |].
    destruct (JS.startsWith t "D"); reflexivity.
Qed.

Lemma dm_loop_call_counts_witness :
  length (List.filter isOpen
            (trace (run (friendly [])
                        (forEachTarget (sampleConfig "" "xoxb-1" true [])
                                       ["D1"; "U2"; "U3"] "digest" 0) tt)))
  = 2%nat.
Proof.
  apply (dm_loop_call_counts (friendly []) (sampleConfig "" "xoxb-1" true [])
           ["D1"; "U2"; "U3"] "digest" 0 3 tt eq_refl).
Defined.

(** ** Whole runs *)

Section WholeRuns.
Context {W : Type}.
Context (handle : forall c : Call, W -> W * (Error + Answer c)).
Context (cfg : Config) (fmt : string -> string).

Lemma channelStep_no_slack (items : list Page) (message : string) (w : W) :
  Forall (fun c => isSlackApiCall c = false)
         (trace (run handle (channelStep cfg items message) w)).
Proof.
  rewrite channelStep_trace. destruct (_ && _); repeat constructor.
Qed.

Lemma dmStep_skipped (items : list Page) (message : string) (w : W) :
  SLACK_BOT_TOKEN cfg = "" \/ items = [] ->
  trace (run handle (dmStep cfg items message) w) = [].
Proof.
  intros H. unfold dmStep.
  destruct (nonEmpty items && nonEmpty (DM_TARGETS cfg)) eqn:E;
    [| reflexivity].
  apply andb_true_iff in E. destruct E as [Hi _].
  destruct H as [Htok | ->]; [| discriminate Hi].
  rewrite (slack_None cfg Htok). reflexivity.
Qed.

(** The calls of a run, step by step. *)
Lemma main_trace_steps (w : W) :
  let q := handle (theQuery cfg) w in
  match snd q with
  | inl _ => trace (run handle (main cfg fmt) w) = [theQuery cfg]
  | inr response =>
      let items := List.filter (notDone cfg) (default [] (results response)) in
      let message := formatDigest cfg fmt items in
      let r2 := run handle (channelStep cfg items message) (fst q) in
      let r3 := run handle (dmStep cfg items message) (final r2) in
      exists t3 t4,
        trace (run handle (main cfg fmt) w)
        = (theQuery cfg :: trace r2) ++ t3 ++ t4 /\
        (t3 = [] \/ (t3 = trace r3 /\ exists posted, result r2 = inr posted)) /\
        (t4 = [] \/
         exists r, t4 = [ConsoleLog (summary r)] /\
                   result r3 = inr (dmsSent r))
  end.
Proof.
  cbn zeta. rewrite run_main. cbn zeta.
  destruct (snd (handle (theQuery cfg) w)) as [e | response]; [reflexivity |].
  destruct (result (run handle (channelStep cfg _ _) _)) as [e | posted].
  - exists [], []. cbn [trace]. rewrite !List.app_nil_r. auto.
  - destruct (result (run handle (dmStep cfg _ _) _)) as [e | sent] eqn:E3.
    + eexists _, []. cbn [trace]. rewrite List.app_nil_r.
      split; [reflexivity |]. split; [right; eauto | left; reflexivity].
    + eexists _, _. cbn [trace]. split; [reflexivity |].
      split; [right; eauto |]. right. eexists. split; reflexivity.
Qed.

End WholeRuns.

(** X15. Without a bot token no run makes a Slack API call: whatever the
    store returns and whatever targets are configured, the trace holds no
    [conversations.open] and no [chat.postMessage]. The same holds, with or
    without a token, of a run in which nothing is due. *)
Theorem no_slack_call_without_token_or_items {W : Type}
        (handle : forall c : Call, W -> W * (Error + Answer c))
        (cfg : Config) (fmt : string -> string) (w : W) :
  SLACK_BOT_TOKEN cfg = "" \/
  (forall response,
      snd (handle (theQuery cfg) w) = inr response ->
      List.filter (notDone cfg) (default [] (results response)) = []) ->
  Forall (fun c => isSlackApiCall c = false)
         (trace (run handle (main cfg fmt) w)).
Proof.
  intros H. pose proof (main_trace_steps handle cfg fmt w) as Hsteps.
  cbn zeta in Hsteps.
  destruct (snd (handle (theQuery cfg) w)) as [e | response] eqn:Hq.
  - rewrite Hsteps. repeat constructor.
  - destruct Hsteps as (t3 & t4 & -> & H3 & H4).
    apply Forall_app. split; [| apply Forall_app; split].
    + constructor; [reflexivity | apply channelStep_no_slack].
    + destruct H3 as [-> | [-> _]]; [constructor |].
      rewrite dmStep_skipped; [constructor |].
      destruct H as [Htok | Hnil]; [left; exact Htok | right].
      apply Hnil. reflexivity.
    + destruct H4 as [-> | (r & -> & _)]; repeat constructor.
Qed.

Lemma no_slack_call_without_token_or_items_witness :
  Forall (fun c => isSlackApiCall c = false)
         (trace (run (friendly [pageB])
                     (main (sampleConfig "https://hooks.example/T1" "xoxb-1"
                                         true ["U1"; "D2"])
                           formatDateOnly) tt)).
Proof.
  apply no_slack_call_without_token_or_items. right.
  intros response [= <-]. reflexivity.
Defined.





(** X18. A run that completes logs its summary exactly once, as its last
    call, and the counts in it add up: no DM was sent when nothing was due,
    and never more DMs than there are targets. *)
Theorem summary_logged_last {W : Type}
        (handle : forall c : Call, W -> W * (Error + Answer c))
        (cfg : Config) (fmt : string -> string) (w : W) (r : RunResult) :
  result (run handle (main cfg fmt) w) = inr r ->
  (exists pre,
      trace (run handle (main cfg fmt) w) = pre ++ [ConsoleLog (summary r)] /\
      Forall (fun c => isSummary c = false) pre) /\
  (dueCount r = 0%nat -> dmsSent r = 0%nat) /\
  (dmsSent r <= length (DM_TARGETS cfg))%nat.
Proof.
  rewrite run_main. cbn zeta.
  destruct (snd (handle (theQuery cfg) w)) as [e | response]; [discriminate |].
  set (items := List.filter (notDone cfg) (default [] (results response))).
  set (message := formatDigest cfg fmt items).
  set (w1 := fst (handle (theQuery cfg) w)).
  pose proof (channelStep_trace handle cfg items message w1) as Hch.
  destruct (result (run handle (channelStep cfg items message) w1))
    as [e | posted]; [discriminate |].
  set (w2 := final (run handle (channelStep cfg items message) w1)) in *.
  pose proof (dmStep_trace handle cfg items message w2) as Hdm.
  destruct (result (run handle (dmStep cfg items message) w2))
    as [e | sent] eqn:Hres; [discriminate |].
  cbn [result trace].
  destruct (snd (handle (ConsoleLog _) _)) as [e | []]; [discriminate |].
  intros [= <-]. cbn [dueCount dmsSent].
  split; [| split].
  - exists (theQuery cfg :: trace (run handle (channelStep cfg items message) w1)
              ++ trace (run handle (dmStep cfg items message) w2)).
    split.
    + cbn [app]. rewrite <- List.app_assoc. reflexivity.
    + constructor; [reflexivity |]. apply Forall_app. split.
      * rewrite Hch. destruct (_ && _); repeat constructor.
      * eapply List.Forall_impl; [| exact Hdm].
        intros c Hc. destruct c; cbn in Hc |- *; tauto.
  - intros Hzero. unfold dmStep in Hres.
    assert (nonEmpty items = false) as Hne
      by (unfold nonEmpty; rewrite Hzero; reflexivity).
    rewrite Hne in Hres. cbn in Hres. congruence.
  - unfold dmStep in Hres.
    destruct (nonEmpty items && nonEmpty (DM_TARGETS cfg));
      [| injection Hres as <-; lia].
    destruct (slack cfg); [| discriminate].
    destruct (forEachTarget_completed handle cfg _ _ _ _ _ Hres) as (-> & _).
    lia.
Qed.

Lemma summary_logged_last_witness :
  exists pre,
    trace (run (friendly [pageB])
               (main (sampleConfig "" "xoxb-1" true ["D1"]) formatDateOnly) tt)
    = pre ++ [ConsoleLog "Done. Due items: 0. Channel posted: 0. DMs sent: 0."].
Proof.
  destruct (summary_logged_last (friendly [pageB])
              (sampleConfig "" "xoxb-1" true ["D1"]) formatDateOnly tt
              {| dueCount := 0; channelPosted := false; dmsSent := 0 |}
              eq_refl) as ((pre & Hpre & _) & _).
  exists pre. exact Hpre.
Defined.

(** ** One line of the digest *)




